(** * ai_companion: the client-side session-and-messaging core

    A shallow embedding of
      - [src/frontend/src/contexts/ChatContext.jsx]: the [chatReducer], the
        handlers the [ChatProvider] subscribes on the event bus, and its
        intent operations ([sendMessage], [createSession], ...);
      - the [WebSocketService] class (second half of
        [src/frontend/src/components/SessionSidebar.jsx]): [connect] with its
        transport handlers, [send] and the verbs built on it, and the
        [on]/[off]/[emit] event bus.

    Conventions.
      - A JavaScript string is a [string] of UTF-8 bytes.
      - An optional field of a JavaScript object ([undefined] when absent) is
        an [option]; [a || b] on an optional string takes [b] when [a] is
        absent or empty.
      - [Date.now()] and [new Date()] are read from an explicit clock value;
        [toISOString] and [encodeURIComponent] are browser built-ins and are
        parameters of the development.
      - [dispatch] applies the reducer at once; an operation of the provider
        reads the snapshot current at the time it is called. *)

From Stdlib Require Import Ascii String.
From stdpp Require Import base strings list gmap pretty.

Set Default Proof Using "Type".

Open Scope string_scope.
Open Scope list_scope.
Open Scope Z_scope.

(** ** JavaScript helpers *)

(** [a || b] where [a] is an optional string and [b] a string. *)
Definition or_else (a : option string) (b : string) : string :=
  match a with
  | Some s => if decide (s = "") then b else s
  | None => b
  end.

(** [a || b] where both sides are optional strings. *)
Definition or_opt (a b : option string) : option string :=
  match a with
  | Some s => if decide (s = "") then b else Some s
  | None => b
  end.

(** Truthiness of an optional string: present and not empty. *)
Definition truthy (a : option string) : bool :=
  match a with
  | Some s => if decide (s = "") then false else true
  | None => false
  end.

(** Truthiness of an optional boolean flag. *)
Definition flag (b : option bool) : bool :=
  match b with
  | Some true => true
  | _ => false
  end.

(** [!content.trim()]: the string is empty or made of white space and line
    terminators only (ECMAScript [WhiteSpace] and [LineTerminator], in their
    UTF-8 encodings). *)
Definition ascii_space (b : N) : bool :=
  ((9 <=? b) && (b <=? 13) || (b =? 32))%N.
Definition two_byte_space (b1 b2 : N) : bool :=
  ((b1 =? 194) && (b2 =? 160))%N.
Definition three_byte_space (b1 b2 b3 : N) : bool :=
  ((b1 =? 225) && (b2 =? 154) && (b3 =? 128)
   || (b1 =? 226) && (b2 =? 128)
      && ((128 <=? b3) && (b3 <=? 138) || (b3 =? 168) || (b3 =? 169) || (b3 =? 175))
   || (b1 =? 226) && (b2 =? 129) && (b3 =? 159)
   || (b1 =? 227) && (b2 =? 128) && (b3 =? 128)
   || (b1 =? 239) && (b2 =? 187) && (b3 =? 191))%N.

Fixpoint blank_bytes (l : list N) : bool :=
  match l with
  | [] => true
  | b1 :: l1 =>
      if ascii_space b1 then blank_bytes l1
      else match l1 with
           | [] => false
           | b2 :: l2 =>
               if two_byte_space b1 b2 then blank_bytes l2
               else match l2 with
                    | [] => false
                    | b3 :: l3 =>
                        if three_byte_space b1 b2 b3 then blank_bytes l3
                        else false
                    end
           end
  end.

Definition blank (s : string) : bool :=
  blank_bytes (map N_of_ascii (list_ascii_of_string s)).

(** ** Data model *)

(** A session of the roster. [message_count] is only present on sessions
    that come from the server's list. *)
Record Session := mkSession {
  sess_id : string;
  title : string;
  sess_created_at : string;
  updated_at : string;
  message_count : option Z
}.

(** A message of the transcript. Messages built by [ADD_USER_MESSAGE] have
    no [isStreaming] and no [emotion] field. *)
Record Message := mkMessage {
  msg_id : string;
  role : string;
  content : string;
  created_at : string;
  isStreaming : option bool;
  emotion : option string
}.

(** [initialState] and every later snapshot. *)
Record State := mkState {
  isConnected : bool;
  isConnecting : bool;
  userId : string;
  sessions : list Session;
  activeSessionId : option string;
  messages : list Message;
  isLoading : bool;
  currentEmotion : option string;
  error : option string
}.

(** [initialState]; [stored] is [localStorage.getItem('ai_companion_user_id')]. *)
Definition initialState (stored : option string) : State :=
  {| isConnected := false; isConnecting := false;
     userId := or_else stored "guest";
     sessions := []; activeSessionId := None; messages := [];
     isLoading := false; currentEmotion := None; error := None |}.

(** [ActionTypes], each with its payload. *)
Inductive Action :=
| SET_CONNECTING
| SET_CONNECTED
| SET_DISCONNECTED
| SET_USER_ID (payload : string)
| SET_SESSIONS (payload : list Session)
| SET_ACTIVE_SESSION (payload : option string)
| ADD_SESSION (payload : Session)
| REMOVE_SESSION (payload : string)
| LOAD_SESSION_MESSAGES (payload : list Message)
| ADD_USER_MESSAGE (id : option string) (content : string)
| START_ASSISTANT_MESSAGE (id : option string)
| APPEND_STREAM_DELTA (delta : string)
| FINISH_ASSISTANT_MESSAGE (emo : option string) (content : option string)
| CLEAR_MESSAGES
| SET_LOADING (payload : bool)
| SET_EMOTION (payload : option string)
| SET_ERROR (payload : string)
| UNKNOWN_ACTION (type : string).

(** ** Record updates: [{ ...state, field: v }] *)

Definition set_isConnected (v : bool) (s : State) : State :=
  mkState v (isConnecting s) (userId s) (sessions s) (activeSessionId s)
          (messages s) (isLoading s) (currentEmotion s) (error s).
Definition set_isConnecting (v : bool) (s : State) : State :=
  mkState (isConnected s) v (userId s) (sessions s) (activeSessionId s)
          (messages s) (isLoading s) (currentEmotion s) (error s).
Definition set_userId (v : string) (s : State) : State :=
  mkState (isConnected s) (isConnecting s) v (sessions s) (activeSessionId s)
          (messages s) (isLoading s) (currentEmotion s) (error s).
Definition set_sessions (v : list Session) (s : State) : State :=
  mkState (isConnected s) (isConnecting s) (userId s) v (activeSessionId s)
          (messages s) (isLoading s) (currentEmotion s) (error s).
Definition set_activeSessionId (v : option string) (s : State) : State :=
  mkState (isConnected s) (isConnecting s) (userId s) (sessions s) v
          (messages s) (isLoading s) (currentEmotion s) (error s).
Definition set_messages (v : list Message) (s : State) : State :=
  mkState (isConnected s) (isConnecting s) (userId s) (sessions s)
          (activeSessionId s) v (isLoading s) (currentEmotion s) (error s).
Definition set_isLoading (v : bool) (s : State) : State :=
  mkState (isConnected s) (isConnecting s) (userId s) (sessions s)
          (activeSessionId s) (messages s) v (currentEmotion s) (error s).
Definition set_currentEmotion (v : option string) (s : State) : State :=
  mkState (isConnected s) (isConnecting s) (userId s) (sessions s)
          (activeSessionId s) (messages s) (isLoading s) v (error s).
Definition set_error (v : option string) (s : State) : State :=
  mkState (isConnected s) (isConnecting s) (userId s) (sessions s)
          (activeSessionId s) (messages s) (isLoading s) (currentEmotion s) v.

(** [{ ...lastMsg, content: c }] *)
Definition with_content (c : string) (m : Message) : Message :=
  mkMessage (msg_id m) (role m) c (created_at m) (isStreaming m) (emotion m).

(** [{ ...lastMsg, isStreaming: false, emotion: emo, content: c }] *)
Definition finished (emo : option string) (c : string) (m : Message) : Message :=
  mkMessage (msg_id m) (role m) c (created_at m) (Some false) emo.

(** Stand-ins for the two browser built-ins, used where an example needs a
    concrete value; no property below depends on what they return. *)
Definition sample_iso (t : Z) : string := "T" +:+ pretty t.
Definition sample_encode (s : string) : string := s.

(** ** The reducer *)

Section Model.

(** [new Date(t).toISOString()] and [encodeURIComponent(s)]. *)
Variable toISOString : Z → string.
Variable encodeURIComponent : string → string.

(** [lastMsg && lastMsg.role === 'assistant' && lastMsg.isStreaming] on one
    message. *)
Definition streaming_assistant (m : Message) : bool :=
  bool_decide (role m = "assistant") && flag (isStreaming m).

(** The same test on [messages[messages.length - 1]], which is [undefined]
    on an empty array. *)
Definition last_streaming (msgs : list Message) : bool :=
  match last msgs with
  | Some m => streaming_assistant m
  | None => false
  end.

(** The message [ADD_USER_MESSAGE] builds. *)
Definition user_message (now : Z) (id : option string) (c : string) : Message :=
  {| msg_id := or_else id ("user-" +:+ pretty now);
     role := "user"; content := c; created_at := toISOString now;
     isStreaming := None; emotion := None |}.

(** The message [START_ASSISTANT_MESSAGE] and the second branch of
    [APPEND_STREAM_DELTA] build. *)
Definition assistant_message (now : Z) (id : option string) (c : string) : Message :=
  {| msg_id := or_else id ("assistant-" +:+ pretty now);
     role := "assistant"; content := c; created_at := toISOString now;
     isStreaming := Some true; emotion := None |}.

(** [messages[messages.length - 1] = m] on a copy of the array. *)
Definition set_last (m : Message) (msgs : list Message) : list Message :=
  <[pred (length msgs) := m]> msgs.

Definition append_stream_delta (now : Z) (delta : string) (msgs : list Message)
  : list Message :=
  match last msgs with
  | Some lastMsg =>
      if streaming_assistant lastMsg
      then set_last (with_content (content lastMsg +:+ delta) lastMsg) msgs
      else msgs ++ [assistant_message now None delta]
  | None => msgs ++ [assistant_message now None delta]
  end.

Definition finish_assistant_message (emo c : option string) (msgs : list Message)
  : list Message :=
  match last msgs with
  | Some lastMsg =>
      if streaming_assistant lastMsg
      then set_last (finished emo (or_else c (content lastMsg)) lastMsg) msgs
      else msgs
  | None => msgs
  end.

(** [chatReducer(state, action)], with the clock reading [now]. The write to
    [localStorage] of [SET_USER_ID] is done by [dispatch] below. *)
Definition chatReducer (now : Z) (state : State) (action : Action) : State :=
  match action with
  | SET_CONNECTING => set_error None (set_isConnecting true state)
  | SET_CONNECTED => set_isConnecting false (set_isConnected true state)
  | SET_DISCONNECTED => set_isConnecting false (set_isConnected false state)
  | SET_USER_ID u => set_userId u state
  | SET_SESSIONS l => set_sessions l state
  | SET_ACTIVE_SESSION a => set_activeSessionId a state
  | ADD_SESSION p =>
      set_activeSessionId (Some (sess_id p))
        (set_sessions (p :: sessions state) state)
  | REMOVE_SESSION p =>
      let active := bool_decide (activeSessionId state = Some p) in
      set_messages (if active then [] else messages state)
        (set_activeSessionId (if active then None else activeSessionId state)
           (set_sessions
              (filter (λ s, sess_id s ≠ p) (sessions state)) state))
  | LOAD_SESSION_MESSAGES l => set_isLoading false (set_messages l state)
  | ADD_USER_MESSAGE id c =>
      set_messages (messages state ++ [user_message now id c]) state
  | START_ASSISTANT_MESSAGE id =>
      set_messages (messages state ++ [assistant_message now id ""]) state
  | APPEND_STREAM_DELTA d =>
      set_messages (append_stream_delta now d (messages state)) state
  | FINISH_ASSISTANT_MESSAGE emo c =>
      set_currentEmotion (or_opt emo (currentEmotion state))
        (set_messages (finish_assistant_message emo c (messages state)) state)
  | CLEAR_MESSAGES => set_messages [] state
  | SET_LOADING b => set_isLoading b state
  | SET_EMOTION e => set_currentEmotion e state
  | SET_ERROR e => set_isLoading false (set_error (Some e) state)
  | UNKNOWN_ACTION _ => state
  end.

(** ** Inbound events and the provider's handlers *)

(** The data handed to the subscribers of an event: the frames of the wire
    protocol, and the two pseudo-events of the transport. The transport's
    [onerror] publishes its DOM event under [error]; it has no [message]
    field, hence [Error None]. *)
Inductive Event :=
| Connected
| Disconnected (code : Z) (reason : string)
| SessionCreated (session_id : string) (title : option string)
| SessionLoaded (session_id : string) (msgs : option (list Message))
| SessionList (sess : option (list Session))
| SessionDeleted (session_id : string)
| Stream (delta : string)
| StreamEnd (emo : option string) (content : option string)
| Audio (data : string) (format : option string)
| UserMessageEcho (content : string)
| Error (message : option string)
| OtherFrame (type : string).

(** The [type] under which an event is published. *)
Definition event_type (ev : Event) : string :=
  match ev with
  | Connected => "connected"
  | Disconnected _ _ => "disconnected"
  | SessionCreated _ _ => "session_created"
  | SessionLoaded _ _ => "session_loaded"
  | SessionList _ => "session_list"
  | SessionDeleted _ => "session_deleted"
  | Stream _ => "stream"
  | StreamEnd _ _ => "stream_end"
  | Audio _ _ => "audio"
  | UserMessageEcho _ => "user_message_echo"
  | Error _ => "error"
  | OtherFrame t => t
  end.

Definition default_title : string := "新对话".
Definition default_error : string := "发生错误".
Definition connect_failed : string := "连接失败".

(** What the handler that [ChatProvider] subscribes for an event dispatches,
    in order (the [audio] handler dispatches nothing). *)
Definition handler_actions (now : Z) (ev : Event) : list Action :=
  match ev with
  | Connected => [SET_CONNECTED]
  | Disconnected _ _ => [SET_DISCONNECTED]
  | SessionCreated sid t =>
      [ADD_SESSION {| sess_id := sid; title := or_else t default_title;
                      sess_created_at := toISOString now;
                      updated_at := toISOString now;
                      message_count := None |}]
  | SessionLoaded sid msgs =>
      [SET_ACTIVE_SESSION (Some sid);
       LOAD_SESSION_MESSAGES (default [] msgs)]
  | SessionList l => [SET_SESSIONS (default [] l)]
  | SessionDeleted sid => [REMOVE_SESSION sid]
  | Stream d => [APPEND_STREAM_DELTA d]
  | StreamEnd emo c => [FINISH_ASSISTANT_MESSAGE emo c]
  | Audio _ _ => []
  | UserMessageEcho c => [ADD_USER_MESSAGE None c]
  | Error m => [SET_ERROR (or_else m default_error)]
  | OtherFrame _ => []
  end.

(** The snapshot after the provider's handler for [ev] has run. *)
Definition on_event (now : Z) (ev : Event) (s : State) : State :=
  fold_left (chatReducer now) (handler_actions now ev) s.

(** A run of inbound events, each with the clock reading at its arrival. *)
Definition on_events (evs : list (Z * Event)) (s : State) : State :=
  fold_left (λ s te, on_event te.1 te.2 s) evs s.


(** ** The event bus of [WebSocketService]: [on], [off], [emit] *)

(** [on(event, callback)]: creates the array when the event has none, then
    pushes. The closure it returns calls [off] with the same arguments. *)
Definition on {Cb : Type} (event : string) (callback : Cb)
    (ls : gmap string (list Cb)) : gmap string (list Cb) :=
  <[event := default [] (ls !! event) ++ [callback]]> ls.

(** [callbacks.indexOf(callback)]: the first position holding the callback. *)
Fixpoint indexOf {Cb : Type} `{EqDecision Cb} (callback : Cb) (l : list Cb)
  : option nat :=
  match l with
  | [] => None
  | x :: l' => if decide (x = callback) then Some O else S <$> indexOf callback l'
  end.

(** [off(event, callback)]: [splice(index, 1)] on the array of the event. *)
Definition off {Cb : Type} `{EqDecision Cb} (event : string) (callback : Cb)
    (ls : gmap string (list Cb)) : gmap string (list Cb) :=
  match ls !! event with
  | None => ls
  | Some callbacks =>
      match indexOf callback callbacks with
      | Some index => <[event := delete index callbacks]> ls
      | None => ls
      end
  end.

Section Emit.
Context {W Cb D : Type}.
(** The listener map inside the state the callbacks act on, and what calling
    a callback does to that state. A callback that throws is caught by
    [emit], so a call always yields a state. *)
Variable listeners_of : W → gmap string (list Cb).
Variable call : Cb → D → W → W.

(** [Array.prototype.forEach] over the live array of the event: the
    positions [k], [k+1], ... below the length read before the first call
    ([n] of them are left), each looked up in the array as it is at that
    moment; a position the array no longer has is passed over. The second
    component lists the callbacks called, in order. *)
Fixpoint forEach (event : string) (data : D) (n k : nat) (w : W)
  : W * list Cb :=
  match n with
  | O => (w, [])
  | S n' =>
      match default [] (listeners_of w !! event) !! k with
      | Some callback =>
          let r := forEach event data n' (S k) (call callback data w) in
          (r.1, callback :: r.2)
      | None => forEach event data n' (S k) w
      end
  end.

Definition emit_calls (event : string) (data : D) (w : W) : W * list Cb :=
  match listeners_of w !! event with
  | None => (w, [])
  | Some callbacks => forEach event data (length callbacks) O w
  end.

(** [emit(event, data)]. *)
Definition emit (event : string) (data : D) (w : W) : W :=
  (emit_calls event data w).1.
End Emit.

(** ** Transports, timers and the whole client *)

Inductive ReadyState := CONNECTING | OPEN | CLOSING | CLOSED.

(** State of the promise returned by the [connect] call that created a
    transport. *)
Inductive Settled := Pending | Resolved | Rejected.

(** A [WebSocket] object. [awaited] tells that the provider's [connect]
    awaits the promise (a reconnect from a timer drops it). *)
Record WebSocket := mkWebSocket {
  url : string;
  readyState : ReadyState;
  promise : Settled;
  awaited : bool
}.

(** A pending [setTimeout]; the callback of every timer of this program is
    [() => this.connect(this.userId)]. *)
Record Timer := mkTimer { delay : Z; set_at : Z }.

(** Outbound frames. *)
Inductive Frame :=
| InitSession (session_id : option string)
| NewSession
| ListSessions
| DeleteSession (session_id : string)
| Chat (content : string)
| ChatAudio (audio : string).

(** What the client did, in order: actions dispatched to the reducer, frames
    written to a transport, and frames [send] refused. *)
Inductive Effect :=
| Dispatched (a : Action)
| Sent (socket : nat) (f : Frame)
| NotSent (f : Frame).

(** The closures subscribed on the bus: the handler the provider's effect
    registers for an event, and the one-shot closure of [sendMessage], with
    the content it captured; [n] tells two such closures apart. *)
Inductive Callback :=
| ProviderHandler (event : string)
| DeferredSend (n : nat) (content : string).

#[local] Instance ReadyState_eq_dec : EqDecision ReadyState.
Proof. solve_decision. Defined.
#[local] Instance Callback_eq_dec : EqDecision Callback.
Proof. solve_decision. Defined.

Record World := mkWorld {
  (* wsService *)
  ws : option nat;
  ws_userId : option string;
  listeners : gmap string (list Callback);
  reconnectAttempts : Z;
  (* the browser *)
  sockets : list WebSocket;
  timers : list Timer;
  clock : Z;
  stored_user : option string;
  (* ChatProvider *)
  state : State;
  audioRef : option string;
  closures : nat;
  (* log *)
  trace : list Effect
}.

Definition maxReconnectAttempts : Z := 5.
Definition reconnectDelay : Z := 3000.
Definition WS_URL : string := "ws://localhost:8000/ws/chat".

Definition set_ws (v : option nat) (w : World) : World :=
  mkWorld v (ws_userId w) (listeners w) (reconnectAttempts w) (sockets w)
          (timers w) (clock w) (stored_user w) (state w) (audioRef w)
          (closures w) (trace w).
Definition set_ws_userId (v : option string) (w : World) : World :=
  mkWorld (ws w) v (listeners w) (reconnectAttempts w) (sockets w)
          (timers w) (clock w) (stored_user w) (state w) (audioRef w)
          (closures w) (trace w).
Definition set_listeners (v : gmap string (list Callback)) (w : World) : World :=
  mkWorld (ws w) (ws_userId w) v (reconnectAttempts w) (sockets w)
          (timers w) (clock w) (stored_user w) (state w) (audioRef w)
          (closures w) (trace w).
Definition set_reconnectAttempts (v : Z) (w : World) : World :=
  mkWorld (ws w) (ws_userId w) (listeners w) v (sockets w)
          (timers w) (clock w) (stored_user w) (state w) (audioRef w)
          (closures w) (trace w).
Definition set_sockets (v : list WebSocket) (w : World) : World :=
  mkWorld (ws w) (ws_userId w) (listeners w) (reconnectAttempts w) v
          (timers w) (clock w) (stored_user w) (state w) (audioRef w)
          (closures w) (trace w).
Definition set_timers (v : list Timer) (w : World) : World :=
  mkWorld (ws w) (ws_userId w) (listeners w) (reconnectAttempts w) (sockets w)
          v (clock w) (stored_user w) (state w) (audioRef w)
          (closures w) (trace w).
Definition set_clock (v : Z) (w : World) : World :=
  mkWorld (ws w) (ws_userId w) (listeners w) (reconnectAttempts w) (sockets w)
          (timers w) v (stored_user w) (state w) (audioRef w)
          (closures w) (trace w).
Definition set_stored_user (v : option string) (w : World) : World :=
  mkWorld (ws w) (ws_userId w) (listeners w) (reconnectAttempts w) (sockets w)
          (timers w) (clock w) v (state w) (audioRef w)
          (closures w) (trace w).
Definition set_state (v : State) (w : World) : World :=
  mkWorld (ws w) (ws_userId w) (listeners w) (reconnectAttempts w) (sockets w)
          (timers w) (clock w) (stored_user w) v (audioRef w)
          (closures w) (trace w).
Definition set_audioRef (v : option string) (w : World) : World :=
  mkWorld (ws w) (ws_userId w) (listeners w) (reconnectAttempts w) (sockets w)
          (timers w) (clock w) (stored_user w) (state w) v
          (closures w) (trace w).
Definition set_closures (v : nat) (w : World) : World :=
  mkWorld (ws w) (ws_userId w) (listeners w) (reconnectAttempts w) (sockets w)
          (timers w) (clock w) (stored_user w) (state w) (audioRef w)
          v (trace w).
Definition set_trace (v : list Effect) (w : World) : World :=
  mkWorld (ws w) (ws_userId w) (listeners w) (reconnectAttempts w) (sockets w)
          (timers w) (clock w) (stored_user w) (state w) (audioRef w)
          (closures w) v.

Definition with_readyState (r : ReadyState) (s : WebSocket) : WebSocket :=
  mkWebSocket (url s) r (promise s) (awaited s).
Definition with_promise (p : Settled) (s : WebSocket) : WebSocket :=
  mkWebSocket (url s) (readyState s) p (awaited s).
Definition with_awaited (a : bool) (s : WebSocket) : WebSocket :=
  mkWebSocket (url s) (readyState s) (promise s) a.

(** [dispatch(action)], with the one side effect the reducer has. *)
Definition dispatch (a : Action) (w : World) : World :=
  let stored := match a with
                | SET_USER_ID u => Some u
                | _ => stored_user w
                end in
  set_trace (trace w ++ [Dispatched a])
    (set_stored_user stored
       (set_state (chatReducer (clock w) (state w) a) w)).

Definition dispatch_all (l : list Action) (w : World) : World :=
  fold_left (λ w a, dispatch a w) l w.

(** ** [WebSocketService]: sending *)

(** [this.ws && this.ws.readyState === WebSocket.OPEN]: the transport the
    service holds, when it is open. *)
Definition open_transport (w : World) : option nat :=
  match ws w with
  | Some k =>
      match sockets w !! k with
      | Some s => if decide (readyState s = OPEN) then Some k else None
      | None => None
      end
  | None => None
  end.

(** [send(type, data)]: writes the frame and returns [true] when the
    transport is open, logs and returns [false] otherwise. *)
Definition send (f : Frame) (w : World) : World * bool :=
  match open_transport w with
  | Some k => (set_trace (trace w ++ [Sent k f]) w, true)
  | None => (set_trace (trace w ++ [NotSent f]) w, false)
  end.

(** [sessionId ? { session_id: sessionId } : {}] *)
Definition initSession (sessionId : option string) (w : World) : World * bool :=
  send (InitSession (if truthy sessionId then sessionId else None)) w.
Definition newSession (w : World) : World * bool := send NewSession w.
Definition listSessions (w : World) : World * bool := send ListSessions w.
Definition deleteSession (sessionId : string) (w : World) : World * bool :=
  send (DeleteSession sessionId) w.
Definition chat (c : string) (w : World) : World * bool := send (Chat c) w.
Definition chatAudio (a : string) (w : World) : World * bool :=
  send (ChatAudio a) w.

(** ** The subscribed closures *)

(** The object a new [Audio(...)] is built from. *)
Definition audio_url (data : string) (format : option string) : string :=
  "data:audio/" +:+ or_else format "wav" +:+ ";base64," +:+ data.

(** Calling a subscribed closure with the data of an event. The provider's
    handler for an event runs on the events published under that name; the
    [audio] handler replaces the playing audio and dispatches nothing. The
    closure of [sendMessage] appends the user message, sends the chat frame
    and unsubscribes itself. *)
Definition invoke (cb : Callback) (ev : Event) (w : World) : World :=
  match cb with
  | ProviderHandler name =>
      if decide (event_type ev = name) then
        let w1 := match ev with
                  | Audio data format =>
                      set_audioRef (Some (audio_url data format)) w
                  | _ => w
                  end in
        dispatch_all (handler_actions (clock w) ev) w1
      else w
  | DeferredSend n c =>
      let w1 := dispatch (ADD_USER_MESSAGE None c) w in
      let w2 := (chat c w1).1 in
      set_listeners (off "session_created" cb (listeners w2)) w2
  end.

(** [this.emit(event, data)] of the service. *)
Definition publish (event : string) (ev : Event) (w : World) : World :=
  emit listeners invoke event ev w.

(** [handleMessage(data)]: under the frame's type, then under [message]. *)
Definition handleMessage (ev : Event) (w : World) : World :=
  publish "message" ev (publish (event_type ev) ev w).

(** ** [WebSocketService.connect] and the transport's handlers *)

(** [String(userId)] inside the template of the URL. *)
Definition user_text (userId : option string) : string :=
  match userId with
  | Some u => u
  | None => "null"
  end.

Definition ws_url (userId : option string) : string :=
  WS_URL +:+ "?user_id=" +:+ encodeURIComponent (user_text userId).

(** [ws.close()] of the browser: a transport that is connecting or open
    starts closing; its close event comes later. *)
Definition close_socket (k : nat) (w : World) : World :=
  set_sockets
    (alter (λ s, match readyState s with
                 | CONNECTING | OPEN => with_readyState CLOSING s
                 | _ => s
                 end) k (sockets w)) w.

(** The part of [connect] after the test of the current transport:
    [this.userId = userId; this.ws = new WebSocket(url)], with the four
    handlers attached. *)
Definition open_socket (userId : option string) (w : World) : World * option nat :=
  let k := length (sockets w) in
  (set_ws (Some k)
     (set_sockets (sockets w ++ [mkWebSocket (ws_url userId) CONNECTING Pending false])
        (set_ws_userId userId w)),
   Some k).

(** [connect(userId)]. The result is [None] when the promise is resolved
    at once, and [Some k] when it waits for the new transport [k]. *)
Definition connect (userId : option string) (w : World) : World * option nat :=
  match open_transport w with
  | Some k =>
      if decide (ws_userId w = userId) then (w, None)
      else open_socket userId (close_socket k w)
  | None => open_socket userId w
  end.

(** [resolve()] of the promise of transport [k]; what the provider's
    [connect] does after its [await] runs when that promise is awaited. *)
Definition resolve (k : nat) (w : World) : World :=
  match sockets w !! k with
  | Some s =>
      match promise s with
      | Pending =>
          let w1 := set_sockets (<[k := with_promise Resolved s]> (sockets w)) w in
          if awaited s then (listSessions w1).1 else w1
      | _ => w
      end
  | None => w
  end.

(** [reject(error)], with the provider's [catch] when the promise is
    awaited. *)
Definition reject (k : nat) (w : World) : World :=
  match sockets w !! k with
  | Some s =>
      match promise s with
      | Pending =>
          let w1 := set_sockets (<[k := with_promise Rejected s]> (sockets w)) w in
          if awaited s then dispatch (SET_ERROR connect_failed) w1 else w1
      | _ => w
      end
  | None => w
  end.

Definition onopen (k : nat) (w : World) : World :=
  resolve k (publish "connected" Connected (set_reconnectAttempts 0 w)).

Definition onclose (k : nat) (code : Z) (reason : string) (w : World) : World :=
  let w1 := publish "disconnected" (Disconnected code reason) w in
  if bool_decide (reconnectAttempts w1 < maxReconnectAttempts) then
    set_timers (timers w1 ++ [mkTimer reconnectDelay (clock w1)])
      (set_reconnectAttempts (reconnectAttempts w1 + 1) w1)
  else w1.

Definition onerror (k : nat) (w : World) : World :=
  reject k (publish "error" (Error None) w).

(** [onmessage]: [data] is the decoded frame, [None] when [JSON.parse]
    throws. *)
Definition onmessage (k : nat) (data : option Event) (w : World) : World :=
  match data with
  | Some ev => handleMessage ev w
  | None => w
  end.

(** [disconnect()]. *)
Definition disconnect (w : World) : World :=
  match ws w with
  | Some k => set_ws None (close_socket k w)
  | None => w
  end.

(** ** [ChatProvider]: subscriptions and intents *)

Definition provider_events : list string :=
  ["connected"; "disconnected"; "session_created"; "session_loaded";
   "session_list"; "session_deleted"; "stream"; "stream_end"; "audio";
   "user_message_echo"; "error"].

(** The effect of [ChatProvider] and its clean-up. *)
Definition mount (w : World) : World :=
  set_listeners
    (fold_left (λ ls e, on e (ProviderHandler e) ls) provider_events (listeners w)) w.
Definition unmount (w : World) : World :=
  set_listeners
    (fold_left (λ ls e, off e (ProviderHandler e) ls) provider_events (listeners w)) w.

(** [if (audioRef.current) { audioRef.current.pause(); audioRef.current = null }] *)
Definition stopAudio (w : World) : World := set_audioRef None w.

(** The provider's [connect(userId)]. *)
Definition provider_connect (u : string) (w : World) : World :=
  let w1 := dispatch SET_CONNECTING w in
  let w2 := if truthy (Some u) && bool_decide (u ≠ userId (state w))
            then dispatch (SET_USER_ID u) w1 else w1 in
  match connect (Some (or_else (Some u) (userId (state w)))) w2 with
  | (w3, None) => (listSessions w3).1
  | (w3, Some k) => set_sockets (alter (with_awaited true) k (sockets w3)) w3
  end.

Definition switchUser (u : string) (w : World) : World :=
  provider_connect u
    (dispatch (SET_ACTIVE_SESSION None)
       (dispatch (SET_SESSIONS []) (dispatch CLEAR_MESSAGES w))).

Definition createSession (w : World) : World :=
  (newSession (dispatch CLEAR_MESSAGES w)).1.

Definition switchSession (sessionId : string) (w : World) : World :=
  if decide (Some sessionId = activeSessionId (state w)) then w
  else (initSession (Some sessionId)
          (dispatch CLEAR_MESSAGES (dispatch (SET_LOADING true) w))).1.

Definition requestDelete (sessionId : string) (w : World) : World :=
  (deleteSession sessionId w).1.

(** [sendMessage(content)]. *)
Definition sendMessage (c : string) (w : World) : World :=
  if blank c then w
  else if negb (truthy (activeSessionId (state w))) then
    let w1 := (newSession w).1 in
    let unsubscribe := DeferredSend (closures w1) c in
    set_closures (S (closures w1))
      (set_listeners (on "session_created" unsubscribe (listeners w1)) w1)
  else
    let w1 := stopAudio w in
    (chat c (dispatch (ADD_USER_MESSAGE None c) w1)).1.

Definition sendAudioMessage (a : string) (w : World) : World :=
  (chatAudio a (stopAudio w)).1.

(** ** The client as a transition system *)

(** What can happen: the events of the transports, a timer coming due, time
    passing, the end of a playback, and the calls of the user interface. *)
Inductive Input :=
| Opens (k : nat)
| Closes (k : nat) (code : Z) (reason : string)
| Fails (k : nat)
| Receives (k : nat) (data : option Event)
| Fires (i : nat)
| Tick (dt : Z)
| AudioEnded
| CallConnect (u : string)
| CallSwitchUser (u : string)
| CallCreateSession
| CallSwitchSession (sessionId : string)
| CallDeleteSession (sessionId : string)
| CallSendMessage (c : string)
| CallSendAudioMessage (a : string)
| CallStopAudio.

Definition mark (k : nat) (r : ReadyState) (w : World) : World :=
  set_sockets (alter (with_readyState r) k (sockets w)) w.

(** One step; [None] when the input cannot happen in this state (a
    transport opens only while connecting, a frame arrives only on an open
    transport, a timer fires only once its delay has passed). *)
Definition step (i : Input) (w : World) : option World :=
  match i with
  | Opens k =>
      s ← sockets w !! k;
      if decide (readyState s = CONNECTING) then Some (onopen k (mark k OPEN w))
      else None
  | Closes k code reason =>
      s ← sockets w !! k;
      if decide (readyState s = CLOSED) then None
      else Some (onclose k code reason (mark k CLOSED w))
  | Fails k =>
      s ← sockets w !! k;
      if decide (readyState s = CLOSED) then None else Some (onerror k w)
  | Receives k data =>
      s ← sockets w !! k;
      if decide (readyState s = OPEN) then Some (onmessage k data w) else None
  | Fires i =>
      t ← timers w !! i;
      if bool_decide (set_at t + delay t ≤ clock w) then
        let w1 := set_timers (delete i (timers w)) w in
        Some (connect (ws_userId w1) w1).1
      else None
  | Tick dt =>
      if bool_decide (0 ≤ dt) then Some (set_clock (clock w + dt) w) else None
  | AudioEnded => Some (set_audioRef None w)
  | CallConnect u => Some (provider_connect u w)
  | CallSwitchUser u => Some (switchUser u w)
  | CallCreateSession => Some (createSession w)
  | CallSwitchSession sid => Some (switchSession sid w)
  | CallDeleteSession sid => Some (requestDelete sid w)
  | CallSendMessage c => Some (sendMessage c w)
  | CallSendAudioMessage a => Some (sendAudioMessage a w)
  | CallStopAudio => Some (stopAudio w)
  end.

Fixpoint run (inputs : list Input) (w : World) : option World :=
  match inputs with
  | [] => Some w
  | i :: rest => w' ← step i w; run rest w'
  end.

(** The client at start: nothing connected, the provider mounted. *)
Definition boot (stored : option string) (t0 : Z) : World :=
  mount {| ws := None; ws_userId := None; listeners := ∅;
           reconnectAttempts := 0; sockets := []; timers := []; clock := t0;
           stored_user := stored; state := initialState stored;
           audioRef := None; closures := O; trace := [] |}.

Inductive reachable : World → Prop :=
| reachable_boot stored t0 : reachable (boot stored t0)
| reachable_step w i w' : reachable w → step i w = Some w' → reachable w'.

(** ** Predicates used by the properties *)

(** The transcript invariant of the data model: a message with
    [isStreaming = true] is the last one and is an assistant message (so at
    most one message is streaming). *)
Definition transcript_invariant (msgs : list Message) : Prop :=
  ∀ i m, msgs !! i = Some m → flag (isStreaming m) = true →
         S i = length msgs ∧ role m = "assistant".

(** Length of the longest prefix whose elements pass the test. *)
Fixpoint count_while {A : Type} (p : A → bool) (l : list A) : nat :=
  match l with
  | [] => O
  | x :: l' => if p x then S (count_while p l') else O
  end.

(** Number of streaming assistant messages at the end of the transcript. *)
Definition trailing_streaming (msgs : list Message) : nat :=
  count_while streaming_assistant (reverse msgs).

(** A run of [stream] events: each delta with the clock reading at its
    arrival. *)
Definition stream_run (deltas : list (Z * string)) (s : State) : State :=
  on_events (map (λ td, (td.1, Stream td.2)) deltas) s.

(** All the deltas of a run, in arrival order, as one string. *)
Definition joined (deltas : list (Z * string)) : string :=
  foldr (λ td acc, td.2 +:+ acc) "" deltas.




(** The inputs that are calls of the user interface. *)
Definition is_call (i : Input) : bool :=
  match i with
  | CallConnect _ | CallSwitchUser _ | CallCreateSession
  | CallSwitchSession _ | CallDeleteSession _ | CallSendMessage _
  | CallSendAudioMessage _ | CallStopAudio => true
  | _ => false
  end.

(** The inputs in which a transport opens. *)
Definition is_open (i : Input) : bool :=
  match i with
  | Opens _ => true
  | _ => false
  end.



(** The frames written to a transport, in order. *)
Definition frames_sent (tr : list Effect) : list Frame :=
  omap (λ e, match e with
             | Sent _ f => Some f
             | _ => None
             end) tr.


(** [w'] has the transports, the timers, the retry counter and the clock of
    [w]: only the snapshot, the listeners, the audio and the log may
    differ. *)
Definition same_service (w w' : World) : Prop :=
  ws w' = ws w ∧ ws_userId w' = ws_userId w
  ∧ reconnectAttempts w' = reconnectAttempts w
  ∧ sockets w' = sockets w ∧ timers w' = timers w ∧ clock w' = clock w.

(** [w'] has the retry counter of [w] and no timer that [w] has not. *)
Definition no_new_timer (w w' : World) : Prop :=
  reconnectAttempts w' = reconnectAttempts w
  ∧ timers w' `sublist_of` timers w.

(** [w'] has the retry counter and the timers of [w]. *)
Definition same_retry (w w' : World) : Prop :=
  reconnectAttempts w' = reconnectAttempts w ∧ timers w' = timers w.

(** Worlds for the examples: the provider mounted and one open transport
    held by the service; the same with the retry counter at 4; the same
    with two one-shot closures of [sendMessage] waiting. *)
Definition sample_open_world : World :=
  set_sockets [mkWebSocket "ws://localhost:8000/ws/chat?user_id=guest"
                 OPEN Resolved true]
    (set_ws (Some O) (set_ws_userId (Some "guest") (boot None 0))).

Definition sample_retry_world : World :=
  set_reconnectAttempts 4 sample_open_world.

Definition sample_waiting_world : World :=
  set_listeners
    (on "session_created" (DeferredSend 1 "yo")
       (on "session_created" (DeferredSend 0 "hi")
          (listeners sample_open_world)))
    sample_open_world.

(** A snapshot whose transcript ends with a streaming assistant message,
    and one with an active session and a finished exchange. *)
Definition sample_streaming_state : State :=
  set_messages [mkMessage "assistant-1" "assistant" "AB" "T1" (Some true) None]
    (set_activeSessionId (Some "s1") (initialState None)).

Definition sample_session_state : State :=
  set_messages [mkMessage "user-1" "user" "hello" "T1" None None]
    (set_sessions [mkSession "s1" "one" "T0" "T0" None;
                   mkSession "s2" "two" "T0" "T0" None]
       (set_activeSessionId (Some "s1") (initialState None))).

(** Runs for the examples, from [boot None 0]. *)
Definition run_echo_during_stream : list Input :=
  [CallConnect "guest"; Opens 0;
   Receives 0 (Some (Stream "A"));
   Receives 0 (Some (UserMessageEcho "x"))].



Definition run_echo_in_session : list Input :=
  [CallConnect "guest"; Opens 0;
   Receives 0 (Some (SessionCreated "s0" None));
   Receives 0 (Some (UserMessageEcho "hello"))].

Definition run_dropped : list Input :=
  [CallConnect "guest"; Opens 0; Closes 0 1006 ""].

(** Five closes in a row, each after the attempt that the previous one
    scheduled; then that fifth attempt, which opens and closes again. *)
Definition run_five_closes : list Input :=
  [CallConnect "guest"; Opens 0; Closes 0 1006 "";
   Tick 3000; Fires 0; Closes 1 1006 "";
   Tick 3000; Fires 0; Closes 2 1006 "";
   Tick 3000; Fires 0; Closes 3 1006 "";
   Tick 3000; Fires 0; Closes 4 1006 ""].

Definition run_fifth_attempt_opens : list Input :=
  [Tick 3000; Fires 0; Opens 5; Closes 5 1006 ""].

(** A close, the attempt it schedules, and the failure of that attempt. *)
Definition run_last_attempt : list Input :=
  [Closes 0 1006 ""; Tick 3000; Fires 0; Fails 1; Closes 1 1006 ""].

(** The calls of the user interface that reach [WebSocketService.connect]. *)
Definition is_connect_call (i : Input) : bool :=
  match i with
  | CallConnect _ | CallSwitchUser _ => true
  | _ => false
  end.

(** The retry ceiling is reached and nothing is under way: no timer is
    pending and no transport is connecting. *)
Definition exhausted (w : World) : Prop :=
  reconnectAttempts w = maxReconnectAttempts
  ∧ timers w = []
  ∧ ∀ k s, sockets w !! k = Some s → readyState s ≠ CONNECTING.

(** ** The components around the provider *)

(** [handleSend] of [ChatPanel]: the text of the input box and the client,
    before and after. *)
Definition handleSend (inputValue : string) (w : World) : string * World :=
  if blank inputValue then (inputValue, w)
  else ("", sendMessage inputValue (stopAudio w)).

(** [handleDeleteSession] of [SessionSidebar]; [confirmed] is the answer of
    [window.confirm]. *)
Definition handleDeleteSession (confirmed : bool) (sessionId : string)
    (w : World) : World :=
  if confirmed then requestDelete sessionId w else w.

(** The effect of [AppContent]: connect once the user has interacted, while
    neither connected nor connecting. *)
Definition autoConnect (hasInteracted : bool) (w : World) : World :=
  if hasInteracted && negb (isConnected (state w))
     && negb (isConnecting (state w))
  then provider_connect (userId (state w)) w
  else w.

(** [w'] has the identifiers of [w] (the one of the service, the one of
    the snapshot and the stored one) and as many transports. *)
Definition same_identity (w w' : World) : Prop :=
  ws_userId w' = ws_userId w
  ∧ length (sockets w') = length (sockets w)
  ∧ userId (state w') = userId (state w)
  ∧ stored_user w' = stored_user w.

(** Whenever a timer is pending a transport was created, and whenever a
    transport was created the service has an identifier. *)
Definition identified (w : World) : Prop :=
  (timers w ≠ [] → sockets w ≠ [])
  ∧ (sockets w ≠ [] → is_Some (ws_userId w)).

(** The snapshot's user identifier is the one a restart would read back
    from storage. *)
Definition user_persisted (w : World) : Prop :=
  userId (state w) = or_else (stored_user w) "guest".

(** The actions other than those that replace or empty the transcript. *)
Definition keeps_history (a : Action) : bool :=
  match a with
  | CLEAR_MESSAGES | LOAD_SESSION_MESSAGES _ | REMOVE_SESSION _ => false
  | _ => true
  end.

(** The bytes of a string, and the visible ASCII characters. *)
Definition bytes_of (s : string) : list N :=
  map N_of_ascii (list_ascii_of_string s).
Definition visible_ascii (b : N) : bool := ((33 <=? b) && (b <=? 126))%N.

(** The array of an event without the first occurrence of a callback: what
    [off] leaves. *)
Definition without_first {Cb : Type} `{EqDecision Cb} (cb : Cb) (l : list Cb)
  : list Cb :=
  match indexOf cb l with
  | Some i => delete i l
  | None => l
  end.

(** * Properties *)

(** ** Strings, lists and transcripts *)

Lemma string_app_empty_r (a : string) : a +:+ "" = a.
Proof.
  induction a as [|x a IH]; [done|].
  change (String x (a +:+ "") = String x a). by rewrite IH.
Qed.

Lemma string_app_assoc (a b c : string) : (a +:+ b) +:+ c = a +:+ (b +:+ c).
Proof.
  induction a as [|x a IH]; [done|].
  change (String x ((a +:+ b) +:+ c) = String x (a +:+ (b +:+ c))).
  by rewrite IH.
Qed.

Lemma set_last_snoc (init : list Message) (m m' : Message) :
  set_last m' (init ++ [m]) = init ++ [m'].
Proof.
  unfold set_last. rewrite length_app, Nat.add_1_r. simpl.
  induction init as [|x init IH]; simpl; [done|].
  destruct init; simpl in *; by rewrite ?IH.
Qed.

Lemma last_streaming_snoc (init : list Message) (m : Message) :
  last_streaming (init ++ [m]) = streaming_assistant m.
Proof. unfold last_streaming. by rewrite last_snoc. Qed.

Lemma append_delta_streaming now d init m :
  streaming_assistant m = true →
  append_stream_delta now d (init ++ [m])
  = init ++ [with_content (content m +:+ d) m].
Proof.
  intros Hm. unfold append_stream_delta.
  rewrite last_snoc, Hm. apply set_last_snoc.
Qed.

Lemma append_delta_fresh now d msgs :
  last_streaming msgs = false →
  append_stream_delta now d msgs = msgs ++ [assistant_message now None d].
Proof.
  unfold last_streaming, append_stream_delta.
  destruct (last msgs) as [m|]; [|done]. by intros ->.
Qed.

Lemma finish_streaming emo c init m :
  streaming_assistant m = true →
  finish_assistant_message emo c (init ++ [m])
  = init ++ [finished emo (or_else c (content m)) m].
Proof.
  intros Hm. unfold finish_assistant_message.
  rewrite last_snoc, Hm. apply set_last_snoc.
Qed.

Lemma finish_not_streaming emo c msgs :
  last_streaming msgs = false → finish_assistant_message emo c msgs = msgs.
Proof.
  unfold last_streaming, finish_assistant_message.
  destruct (last msgs) as [m|]; [|done]. by intros ->.
Qed.

Lemma streaming_with_content c m :
  streaming_assistant (with_content c m) = streaming_assistant m.
Proof. done. Qed.

Lemma stream_run_cons t d rest s :
  stream_run ((t, d) :: rest) s
  = stream_run rest (set_messages (append_stream_delta t d (messages s)) s).
Proof. done. Qed.

(** Deltas that arrive while the last message is streaming all land in
    that message. *)
Lemma stream_run_streaming rest : ∀ s init m,
  messages s = init ++ [m] → streaming_assistant m = true →
  messages (stream_run rest s)
  = init ++ [with_content (content m +:+ joined rest) m].
Proof.
  induction rest as [|[t d] rest IH]; intros s init m Hs Hm.
  - unfold stream_run, on_events; simpl. rewrite Hs. unfold joined; simpl.
    rewrite string_app_empty_r. by destruct m.
  - rewrite stream_run_cons.
    rewrite (IH _ init (with_content (content m +:+ d) m)).
    + unfold with_content, joined; simpl. by rewrite string_app_assoc.
    + simpl. rewrite Hs. by apply append_delta_streaming.
    + by rewrite streaming_with_content.
Qed.

Lemma trailing_streaming_snoc init m :
  last_streaming init = false → streaming_assistant m = true →
  trailing_streaming (init ++ [m]) = 1%nat.
Proof.
  intros Hi Hm. unfold trailing_streaming. rewrite reverse_snoc. simpl.
  rewrite Hm. f_equal.
  destruct (last init) as [x|] eqn:Hl.
  - apply last_Some in Hl as [l' ->]. rewrite reverse_snoc. simpl.
    rewrite last_streaming_snoc in Hi. by rewrite Hi.
  - apply last_None in Hl as ->. done.
Qed.

(** C1. A run of one or more [stream] events that starts on a transcript
    whose last entry is not a streaming assistant message appends exactly one
    message: a streaming assistant message whose content is the
    concatenation of the deltas in arrival order, and it is the only
    streaming assistant message at the end of the transcript. One delta is
    appended to the content of the last entry in place when that entry is a
    streaming assistant message, and otherwise appended as a new streaming
    assistant message whose content is the delta; so every delta of a run
    that starts on a streaming assistant message lands in that message. *)
Theorem stream_deltas_assemble (s : State) (t : Z) (d : string)
    (rest : list (Z * string))
    (Hlast : last_streaming (messages s) = false) :
  let msgs := messages (stream_run ((t, d) :: rest) s) in
  (∃ m, msgs = messages s ++ [m]
        ∧ role m = "assistant" ∧ isStreaming m = Some true
        ∧ content m = joined ((t, d) :: rest))
  ∧ trailing_streaming msgs = 1%nat
  ∧ (∀ s' t' d' init m,
        messages s' = init ++ [m] → streaming_assistant m = true →
        messages (on_event t' (Stream d') s')
        = init ++ [mkMessage (msg_id m) (role m) (content m +:+ d')
                             (created_at m) (isStreaming m) (emotion m)])
  ∧ (∀ s' t' d',
        last_streaming (messages s') = false →
        ∃ m, messages (on_event t' (Stream d') s') = messages s' ++ [m]
             ∧ role m = "assistant" ∧ isStreaming m = Some true
             ∧ content m = d')
  ∧ (∀ s' deltas init m,
        messages s' = init ++ [m] → streaming_assistant m = true →
        messages (stream_run deltas s')
        = init ++ [mkMessage (msg_id m) (role m) (content m +:+ joined deltas)
                             (created_at m) (isStreaming m) (emotion m)]).
Proof.
  assert (Hrun : messages (stream_run ((t, d) :: rest) s)
                 = messages s ++ [with_content (d +:+ joined rest)
                                    (assistant_message t None d)]).
  { rewrite stream_run_cons.
    rewrite (stream_run_streaming rest _ (messages s)
               (assistant_message t None d)); [done| |done].
    simpl. by apply append_delta_fresh. }
  simpl. rewrite Hrun. repeat split.
  - eexists. split; [done|]. by repeat split.
  - by apply trailing_streaming_snoc.
  - intros s' t' d' init m Hs' Hm. unfold on_event; simpl.
    rewrite Hs'. by apply append_delta_streaming.
  - intros s' t' d' Hs'. unfold on_event; simpl.
    rewrite append_delta_fresh by done.
    eexists. split; [done|]. by repeat split.
  - intros s' deltas init m Hs' Hm. by apply stream_run_streaming.
Qed.

(** C9. A [stream_end] event on a transcript whose last entry is not a
    streaming assistant message (the empty transcript included) leaves the
    transcript as it is, whatever [emo] and [content] it carries. *)
Theorem stream_end_without_stream (t : Z) (s : State) (emo c : option string)
    (Hlast : last_streaming (messages s) = false) :
  messages (on_event t (StreamEnd emo c) s) = messages s.
Proof. unfold on_event; simpl. by apply finish_not_streaming. Qed.

(** ** The reducer on one event *)

(** C6. [session_deleted] is one reducer transition. It removes from the
    roster the sessions with the given id and no other; when that id is the
    active one, the active id becomes null and the transcript empty; when it
    is not, the active id and the transcript stay as they are. *)
Theorem session_deleted_effect (t : Z) (s : State) (sid : string) :
  let s' := on_event t (SessionDeleted sid) s in
  handler_actions t (SessionDeleted sid) = [REMOVE_SESSION sid]
  ∧ sessions s' = filter (λ x, sess_id x ≠ sid) (sessions s)
  ∧ (∀ x, x ∈ sessions s' ↔ x ∈ sessions s ∧ sess_id x ≠ sid)
  ∧ (activeSessionId s = Some sid →
       activeSessionId s' = None ∧ messages s' = [])
  ∧ (activeSessionId s ≠ Some sid →
       activeSessionId s' = activeSessionId s ∧ messages s' = messages s).
Proof.
  unfold on_event; simpl.
  split; [done|]. split; [done|]. split; [|split].
  - intros x. rewrite list_elem_of_filter. split; intros [? ?]; by split.
  - intros Ha. by rewrite bool_decide_eq_true_2.
  - intros Ha. by rewrite bool_decide_eq_false_2.
Qed.

(** C8, amended. On [stream_end], when the last entry is a streaming
    assistant message, that message becomes non-streaming, its emotion tag
    is the event's [emo], and its content is the event's [content] when that
    is present and not empty, the accumulated content otherwise; the current
    emotion becomes the event's [emo] when that is present and not empty and
    is kept otherwise. From a transcript whose last entry is not a streaming
    assistant message, [stream A], [stream B], [stream_end {emo: happy}]
    leave as last message an assistant message with content "AB", not
    streaming, with emotion "happy". *)
Theorem stream_end_finishes (t : Z) (s : State) (init : list Message)
    (m : Message) (emo c : option string)
    (Hmsgs : messages s = init ++ [m])
    (Hm : streaming_assistant m = true) :
  let s' := on_event t (StreamEnd emo c) s in
  messages s'
  = init ++ [mkMessage (msg_id m) (role m)
                       (match c with
                        | Some final => if decide (final = "") then content m
                                        else final
                        | None => content m
                        end)
                       (created_at m) (Some false) emo]
  ∧ currentEmotion s' = (if truthy emo then emo else currentEmotion s)
  ∧ (∀ s0 tA tB tE,
        last_streaming (messages s0) = false →
        ∃ m', last (messages (on_events [(tA, Stream "A"); (tB, Stream "B");
                                         (tE, StreamEnd (Some "happy") None)] s0))
              = Some m'
              ∧ role m' = "assistant" ∧ content m' = "AB"
              ∧ isStreaming m' = Some false ∧ emotion m' = Some "happy").
Proof.
  unfold on_event; simpl. rewrite Hmsgs. repeat split.
  - by rewrite finish_streaming.
  - unfold or_opt, truthy. destruct emo as [e|]; [|done]. by case_decide.
  - intros s0 tA tB tE Hs0. unfold on_events, on_event; simpl.
    rewrite (append_delta_fresh tA "A") by done.
    rewrite (append_delta_streaming tB "B") by done.
    rewrite finish_streaming by done.
    eexists. rewrite last_snoc. split; [done|]. by repeat split.
Qed.

(** ** The transcript invariant *)

Lemma invariant_nil : transcript_invariant [].
Proof. intros i m Hi. by rewrite lookup_nil in Hi. Qed.

Lemma invariant_none_streaming (msgs : list Message) :
  (∀ m, m ∈ msgs → flag (isStreaming m) = false) → transcript_invariant msgs.
Proof.
  intros Hnone i m Hi Hf. apply list_elem_of_lookup_2 in Hi.
  rewrite (Hnone m Hi) in Hf. done.
Qed.

(** Under the invariant, a message that is not the last one is not
    streaming. *)
Lemma invariant_init (init : list Message) (m : Message) :
  transcript_invariant (init ++ [m]) →
  ∀ x, x ∈ init → flag (isStreaming x) = false.
Proof.
  intros Hinv x Hx. apply list_elem_of_lookup_1 in Hx as [i Hi].
  destruct (flag (isStreaming x)) eqn:Hf; [|done].
  destruct (Hinv i x) as [Hlen _]; [by apply lookup_app_l_Some|done|].
  apply lookup_lt_Some in Hi. rewrite length_app in Hlen. simpl in Hlen. lia.
Qed.

Lemma invariant_snoc (init : list Message) (m : Message) :
  (∀ x, x ∈ init → flag (isStreaming x) = false) →
  (flag (isStreaming m) = true → role m = "assistant") →
  transcript_invariant (init ++ [m]).
Proof.
  intros Hinit Hm i x Hi Hf.
  destruct (decide (i < length init)%nat) as [Hlt|Hge].
  - rewrite lookup_app_l in Hi by done.
    apply list_elem_of_lookup_2 in Hi. by rewrite (Hinit x Hi) in Hf.
  - rewrite lookup_app_r in Hi by lia.
    destruct (i - length init)%nat eqn:Hd; [|by destruct n].
    simpl in Hi. injection Hi as <-. rewrite length_app; simpl.
    split; [lia|auto].
Qed.

(** Under the invariant, when the last entry is not a streaming assistant
    message no message is streaming. *)
Lemma invariant_not_streaming (msgs : list Message) :
  transcript_invariant msgs → last_streaming msgs = false →
  ∀ x, x ∈ msgs → flag (isStreaming x) = false.
Proof.
  intros Hinv Hlast x Hx.
  destruct (last msgs) as [m|] eqn:Hl.
  - apply last_Some in Hl as [init ->].
    rewrite last_streaming_snoc in Hlast.
    apply elem_of_app in Hx as [Hx|Hx]; [by eapply invariant_init|].
    apply list_elem_of_singleton in Hx as ->.
    destruct (flag (isStreaming m)) eqn:Hf; [|done].
    destruct (Hinv (length init) m) as [_ Hr]; [|done|].
    { by rewrite lookup_app_r, Nat.sub_diag by lia. }
    unfold streaming_assistant in Hlast.
    by rewrite Hf, bool_decide_eq_true_2 in Hlast.
  - apply last_None in Hl as ->. by apply elem_of_nil in Hx.
Qed.

(** C2, amended. The initial snapshot satisfies the transcript invariant,
    and a reducer transition from a snapshot that satisfies it yields one
    that does, provided that a message is appended ([ADD_USER_MESSAGE],
    [START_ASSISTANT_MESSAGE]) only while no message is streaming, and that
    the messages [session_loaded] supplies satisfy it themselves. *)
Theorem invariant_preserved (t : Z) (s : State) (a : Action)
    (Hinv : transcript_invariant (messages s))
    (Hside : match a with
             | ADD_USER_MESSAGE _ _ | START_ASSISTANT_MESSAGE _ =>
                 ∀ m, m ∈ messages s → flag (isStreaming m) = false
             | LOAD_SESSION_MESSAGES l => transcript_invariant l
             | _ => True
             end) :
  transcript_invariant (messages (chatReducer t s a))
  ∧ ∀ stored, transcript_invariant (messages (initialState stored)).
Proof.
  split; [|intros; apply invariant_nil].
  destruct a; simpl; try done.
  - case_bool_decide; [apply invariant_nil|done].
  - by apply invariant_snoc.
  - by apply invariant_snoc.
  - destruct (last_streaming (messages s)) eqn:Hlast.
    + unfold last_streaming in Hlast.
      destruct (last (messages s)) as [m|] eqn:Hl; [|done].
      apply last_Some in Hl as [init Hl]. rewrite Hl in *.
      rewrite append_delta_streaming by done.
      apply invariant_snoc; [by eapply invariant_init|].
      intros _. unfold streaming_assistant in Hlast.
      apply andb_prop in Hlast as [Hr _]. by apply bool_decide_eq_true in Hr.
    + rewrite append_delta_fresh by done.
      apply invariant_snoc; [by apply invariant_not_streaming|done].
  - destruct (last_streaming (messages s)) eqn:Hlast.
    + unfold last_streaming in Hlast.
      destruct (last (messages s)) as [m|] eqn:Hl; [|done].
      apply last_Some in Hl as [init Hl]. rewrite Hl in *.
      rewrite finish_streaming by done.
      apply invariant_snoc; [by eapply invariant_init|done].
    + by rewrite finish_not_streaming.
Qed.

(** ** The event bus *)

Section EmitFacts.
Context {W Cb D : Type}.
Variable listeners_of : W → gmap string (list Cb).
Variable call : Cb → D → W → W.

(** What every call preserves, a whole [forEach] preserves. *)
Lemma forEach_preserves (P : W → Prop) event data :
  (∀ cb w, P w → P (call cb data w)) →
  ∀ n k w, P w → P (forEach listeners_of call event data n k w).1.
Proof.
  intros Hcall. induction n as [|n IH]; intros k w Hw; simpl; [done|].
  destruct (default [] (listeners_of w !! event) !! k); simpl; auto.
Qed.

Lemma emit_preserves (P : W → Prop) event data w :
  (∀ cb w, P w → P (call cb data w)) →
  P w → P (emit listeners_of call event data w).
Proof.
  intros Hcall Hw. unfold emit, emit_calls.
  destruct (listeners_of w !! event); [|done].
  by apply forEach_preserves.
Qed.


(** While no callback touches the array of the event, [forEach] calls
    the callbacks at the positions it goes through, in order. *)
Lemma forEach_stable event data (l : list Cb) n : ∀ k w,
  listeners_of w !! event = Some l →
  (∀ c w', c ∈ take n (drop k l) →
           listeners_of (call c data w') !! event = listeners_of w' !! event) →
  let r := forEach listeners_of call event data n k w in
  r.2 = take n (drop k l) ∧ listeners_of r.1 !! event = Some l.
Proof.
  induction n as [|n IH]; intros k w Hl Hq; simpl; [done|].
  rewrite Hl; simpl. destruct (l !! k) as [c|] eqn:Hk.
  - rewrite (drop_S _ _ _ Hk) in *. simpl in *.
    destruct (IH (S k) (call c data w)) as [IH1 IH2].
    + rewrite Hq; [done|]. apply list_elem_of_here.
    + intros c' w' Hc'. apply Hq. by apply list_elem_of_further.
    + simpl. by rewrite IH1.
  - apply lookup_ge_None in Hk.
    destruct (IH (S k) w) as [IH1 IH2]; [done| |].
    + intros c' w'. rewrite drop_ge by lia. rewrite take_nil.
      intros Hc'. by apply elem_of_nil in Hc'.
    + rewrite IH1. rewrite !drop_ge by lia. by rewrite take_nil.
Qed.


End EmitFacts.

(** ** What the callbacks and the operations leave alone *)

Lemma dispatch_same_service a w : same_service w (dispatch a w).
Proof. by repeat split. Qed.

Lemma same_service_trans w1 w2 w3 :
  same_service w1 w2 → same_service w2 w3 → same_service w1 w3.
Proof.
  unfold same_service. intros (?&?&?&?&?&?) (?&?&?&?&?&?).
  repeat split; congruence.
Qed.

Lemma dispatch_all_same_service l : ∀ w, same_service w (dispatch_all l w).
Proof.
  induction l as [|a l IH]; intros w; simpl; [by repeat split|].
  eapply same_service_trans; [apply (dispatch_same_service a)|apply IH].
Qed.

Lemma send_same_service f w : same_service w (send f w).1.
Proof. unfold send. by destruct (open_transport w); repeat split. Qed.

Lemma invoke_same_service cb ev w : same_service w (invoke cb ev w).
Proof.
  destruct cb as [name|n c]; simpl.
  - case_decide; [|by repeat split].
    eapply same_service_trans; [|apply dispatch_all_same_service].
    by destruct ev; repeat split.
  - unfold chat.
    eapply same_service_trans;
      [apply (dispatch_same_service (ADD_USER_MESSAGE None c) w)|].
    eapply same_service_trans; [apply (send_same_service (Chat c))|].
    by repeat split.
Qed.

Lemma publish_same_service event ev w : same_service w (publish event ev w).
Proof.
  unfold publish. apply (emit_preserves listeners invoke (same_service w)).
  - intros cb w' Hw'. eapply same_service_trans; [done|].
    apply invoke_same_service.
  - by repeat split.
Qed.

Lemma handleMessage_same_service ev w : same_service w (handleMessage ev w).
Proof.
  unfold handleMessage.
  eapply same_service_trans; apply publish_same_service.
Qed.

Lemma same_service_retry w w' : same_service w w' → same_retry w w'.
Proof. intros (?&?&?&?&?&?). by split. Qed.

Lemma same_retry_trans w1 w2 w3 :
  same_retry w1 w2 → same_retry w2 w3 → same_retry w1 w3.
Proof. unfold same_retry. intros [? ?] [? ?]. split; congruence. Qed.

Lemma connect_same_retry u w : same_retry w (connect u w).1.
Proof.
  unfold connect, open_socket.
  destruct (open_transport w); [case_decide|]; by split.
Qed.

Lemma resolve_same_retry k w : same_retry w (resolve k w).
Proof.
  unfold resolve. destruct (sockets w !! k) as [s|]; [|by split].
  destruct (promise s); try by split.
  destruct (awaited s); [|by split].
  eapply same_retry_trans; [|apply same_service_retry, send_same_service].
  by split.
Qed.

Lemma reject_same_retry k w : same_retry w (reject k w).
Proof.
  unfold reject. destruct (sockets w !! k) as [s|]; [|by split].
  destruct (promise s); try by split.
  by destruct (awaited s); split.
Qed.

Lemma provider_connect_same_retry u w : same_retry w (provider_connect u w).
Proof.
  unfold provider_connect.
  match goal with
  | |- context [connect ?target ?w2] =>
      assert (H2 : same_retry w w2) by (by destruct (_ && _); split);
      pose proof (connect_same_retry target w2) as Hc;
      destruct (connect target w2) as [w3 [k|]]
  end; simpl in Hc.
  - eapply same_retry_trans; [done|]. eapply same_retry_trans; [done|].
    by split.
  - eapply same_retry_trans; [done|]. eapply same_retry_trans; [done|].
    apply same_service_retry, send_same_service.
Qed.

Lemma call_same_retry i w w' :
  is_call i = true → step i w = Some w' → same_retry w w'.
Proof.
  destruct i; try done; intros _ [= <-].
  - apply provider_connect_same_retry.
  - unfold switchUser.
    eapply same_retry_trans; [|apply provider_connect_same_retry]. by split.
  - unfold createSession, newSession.
    eapply same_retry_trans; [|apply same_service_retry, send_same_service].
    by split.
  - unfold switchSession, initSession. case_decide; [by split|].
    eapply same_retry_trans; [|apply same_service_retry, send_same_service].
    by split.
  - apply same_service_retry, send_same_service.
  - unfold sendMessage, newSession, chat. destruct (blank c); [by split|].
    destruct (negb _).
    + eapply same_retry_trans;
        [apply same_service_retry, (send_same_service NewSession w)|].
      by split.
    + eapply same_retry_trans; [|apply same_service_retry, send_same_service].
      by split.
  - unfold sendAudioMessage, chatAudio.
    eapply same_retry_trans; [|apply same_service_retry, send_same_service].
    by split.
  - by split.
Qed.

(** ** Reconnection *)

Lemma onclose_below k code reason w :
  reconnectAttempts w < maxReconnectAttempts →
  reconnectAttempts (onclose k code reason w) = reconnectAttempts w + 1
  ∧ timers (onclose k code reason w)
    = timers w ++ [mkTimer reconnectDelay (clock w)].
Proof.
  intros Hlt. unfold onclose. cbv zeta.
  destruct (publish_same_service "disconnected" (Disconnected code reason) w)
    as (_&_&Ha&_&Ht&Hc).
  rewrite Ha, bool_decide_eq_true_2 by done. simpl. by rewrite Ht, Hc.
Qed.

Lemma onclose_ceiling k code reason w :
  maxReconnectAttempts ≤ reconnectAttempts w →
  same_retry w (onclose k code reason w).
Proof.
  intros Hge. unfold onclose. cbv zeta.
  destruct (publish_same_service "disconnected" (Disconnected code reason) w)
    as (_&_&Ha&_&Ht&_).
  rewrite Ha, bool_decide_eq_false_2 by lia. by split.
Qed.

Lemma onerror_same_retry k w : same_retry w (onerror k w).
Proof.
  unfold onerror.
  eapply same_retry_trans; [|apply reject_same_retry].
  apply same_service_retry, publish_same_service.
Qed.

Lemma onopen_resets k w : reconnectAttempts (onopen k w) = 0.
Proof.
  unfold onopen.
  destruct (resolve_same_retry k
              (publish "connected" Connected (set_reconnectAttempts 0 w)))
    as [-> _].
  by destruct (publish_same_service "connected" Connected
                 (set_reconnectAttempts 0 w)) as (_&_&->&_).
Qed.

(** At the ceiling, a step in which no transport opens schedules nothing
    and leaves the counter. *)
Lemma step_no_new_timer i w w' :
  maxReconnectAttempts ≤ reconnectAttempts w →
  is_open i = false → step i w = Some w' → no_new_timer w w'.
Proof.
  intros Hge Hi Hstep.
  assert (Hret : same_retry w w' → no_new_timer w w').
  { intros [Ha Ht]. split; [done|]. by rewrite Ht. }
  destruct (is_call i) eqn:Hcall; [by eapply Hret, call_same_retry|].
  destruct i; try done; simpl in Hstep.
  - destruct (sockets w !! k) as [s|]; [|done]. simpl in Hstep.
    case_decide; [done|]. injection Hstep as <-.
    by apply Hret, (onclose_ceiling k code reason (mark k CLOSED w)).
  - destruct (sockets w !! k) as [s|]; [|done]. simpl in Hstep.
    case_decide; [done|]. injection Hstep as <-.
    apply Hret, onerror_same_retry.
  - destruct (sockets w !! k) as [s|]; [|done]. simpl in Hstep.
    case_decide; [|done]. injection Hstep as <-.
    destruct data as [ev|]; simpl; [|by apply Hret].
    apply Hret, same_service_retry, handleMessage_same_service.
  - destruct (timers w !! i) as [t|]; [|done]. simpl in Hstep.
    case_bool_decide; [|done]. injection Hstep as <-.
    destruct (connect_same_retry (ws_userId w)
                (set_timers (delete i (timers w)) w)) as [Ha Ht].
    split; [done|]. simpl in Ht. rewrite Ht. apply sublist_delete.
  - case_bool_decide; [|done]. injection Hstep as <-. by apply Hret.
  - injection Hstep as <-. by apply Hret.
Qed.

Lemma run_no_new_timer inputs : ∀ w w',
  maxReconnectAttempts ≤ reconnectAttempts w →
  forallb (λ i, negb (is_open i)) inputs = true →
  run inputs w = Some w' → no_new_timer w w'.
Proof.
  induction inputs as [|i inputs IH]; intros w w' Hge Hq Hrun; simpl in *.
  - injection Hrun as <-. by split.
  - apply andb_prop in Hq as [Hi Hq]. apply negb_true_iff in Hi.
    destruct (step i w) as [w1|] eqn:Hstep; [|done]. simpl in Hrun.
    destruct (step_no_new_timer i w w1 Hge Hi Hstep) as [Ha Ht].
    destruct (IH w1 w') as [Ha' Ht']; [by rewrite Ha|done|done|].
    split; [congruence|]. by etrans.
Qed.

Lemma send_sockets f w : sockets (send f w).1 = sockets w.
Proof. by destruct (send_same_service f w) as (_&_&_&?&_). Qed.

Lemma call_sockets i w w' :
  is_call i = true → is_connect_call i = false → step i w = Some w' →
  sockets w' = sockets w.
Proof.
  destruct i; try done; intros _ _ [= <-].
  - unfold createSession, newSession. by rewrite send_sockets.
  - unfold switchSession, initSession. case_decide; [done|].
    by rewrite send_sockets.
  - unfold requestDelete, deleteSession. by rewrite send_sockets.
  - unfold sendMessage, newSession, chat. destruct (blank c); [done|].
    destruct (negb _); simpl; by rewrite send_sockets.
  - unfold sendAudioMessage, chatAudio. by rewrite send_sockets.
  - done.
Qed.

Lemma reject_readyState k w j s' :
  sockets (reject k w) !! j = Some s' →
  ∃ s, sockets w !! j = Some s ∧ readyState s' = readyState s.
Proof.
  unfold reject. destruct (sockets w !! k) as [s|] eqn:Hk; [|by eauto].
  destruct (promise s); try by eauto.
  assert (Hins : sockets (set_sockets (<[k:=with_promise Rejected s]> (sockets w)) w)
                   !! j = Some s' →
                 ∃ s0, sockets w !! j = Some s0 ∧ readyState s' = readyState s0).
  { simpl. destruct (decide (k = j)) as [->|Hne].
    - rewrite list_lookup_insert_eq by by eapply lookup_lt_Some.
      intros [= <-]. by exists s.
    - rewrite list_lookup_insert_ne by done. by eauto. }
  by destruct (awaited s).
Qed.

(** Once the retries are exhausted, a step that is not a call of [connect]
    leaves them exhausted. *)
Lemma step_exhausted i w w' :
  exhausted w → is_connect_call i = false → step i w = Some w' →
  exhausted w'.
Proof.
  intros (Ha & Ht & Hs) Hi Hstep.
  destruct (is_call i) eqn:Hcall.
  { destruct (call_same_retry i w w' Hcall Hstep) as [Ha' Ht'].
    split; [congruence|]. split; [congruence|].
    by rewrite (call_sockets i w w' Hcall Hi Hstep). }
  destruct i; try done; simpl in Hstep.
  - destruct (sockets w !! k) as [s|] eqn:Hk; [|done]. simpl in Hstep.
    case_decide as Hc; [|done]. by destruct (Hs k s Hk).
  - destruct (sockets w !! k) as [s|] eqn:Hk; [|done]. simpl in Hstep.
    case_decide; [done|]. injection Hstep as <-.
    destruct (onclose_ceiling k code reason (mark k CLOSED w)) as [Ha' Ht'];
      [simpl; lia|].
    split; [by rewrite Ha'|]. split; [by rewrite Ht'|].
    intros j s' Hj. unfold onclose in Hj.
    destruct (publish_same_service "disconnected" (Disconnected code reason)
                (mark k CLOSED w)) as (_&_&Hpa&Hps&_&_).
    cbv zeta in Hj. rewrite Hpa in Hj. simpl in Hj.
    rewrite bool_decide_eq_false_2 in Hj by (unfold maxReconnectAttempts in *; lia).
    rewrite Hps in Hj. simpl in Hj.
    destruct (decide (k = j)) as [->|Hne].
    + rewrite list_lookup_alter_eq, Hk in Hj. by injection Hj as <-.
    + rewrite list_lookup_alter_ne in Hj by done. by eapply Hs.
  - destruct (sockets w !! k) as [s|] eqn:Hk; [|done]. simpl in Hstep.
    case_decide; [done|]. injection Hstep as <-.
    destruct (onerror_same_retry k w) as [Ha' Ht'].
    split; [congruence|]. split; [congruence|].
    intros j s' Hj. unfold onerror in Hj.
    apply reject_readyState in Hj as (s0 & Hj & ->).
    destruct (publish_same_service "error" (Error None) w) as (_&_&_&Hps&_&_).
    rewrite Hps in Hj. by eapply Hs.
  - destruct (sockets w !! k) as [s|] eqn:Hk; [|done]. simpl in Hstep.
    case_decide; [|done]. injection Hstep as <-.
    destruct data as [ev|]; simpl; [|done].
    destruct (handleMessage_same_service ev w) as (_&_&Ha'&Hs'&Ht'&_).
    split; [congruence|]. split; [congruence|]. by rewrite Hs'.
  - by rewrite Ht in Hstep.
  - case_bool_decide; [|done]. by injection Hstep as <-.
  - by injection Hstep as <-.
Qed.

Lemma run_exhausted inputs : ∀ w w',
  exhausted w →
  forallb (λ i, negb (is_connect_call i)) inputs = true →
  run inputs w = Some w' → exhausted w'.
Proof.
  induction inputs as [|i inputs IH]; intros w w' Hw Hq Hrun; simpl in *.
  - by injection Hrun as <-.
  - apply andb_prop in Hq as [Hi Hq]. apply negb_true_iff in Hi.
    destruct (step i w) as [w1|] eqn:Hstep; [|done].
    eapply IH; [|done|exact Hrun]. by eapply step_exhausted.
Qed.

Lemma publish_error_dispatches w :
  listeners w !! "error" = Some [ProviderHandler "error"] →
  trace (publish "error" (Error None) w)
  = trace w ++ [Dispatched (SET_ERROR default_error)].
Proof.
  intros Hl. unfold publish, emit, emit_calls. rewrite Hl.
  unfold length, forEach. rewrite Hl. done.
Qed.

Lemma reject_trace_grows k w e : e ∈ trace w → e ∈ trace (reject k w).
Proof.
  intros He. unfold reject. destruct (sockets w !! k) as [s|]; [|done].
  destruct (promise s); try done.
  destruct (awaited s); simpl; [|done]. apply elem_of_app. by left.
Qed.

Lemma reject_pending k w s :
  sockets w !! k = Some s → promise s = Pending →
  promise <$> sockets (reject k w) !! k = Some Rejected.
Proof.
  intros Hk Hp. unfold reject. rewrite Hk, Hp.
  assert (Hlt : (k < length (sockets w))%nat) by by eapply lookup_lt_Some.
  destruct (awaited s); simpl; by rewrite list_lookup_insert_eq.
Qed.

Lemma delete_last_snoc {A : Type} (l : list A) (x : A) :
  delete (length l) (l ++ [x]) = l.
Proof. induction l as [|y l IH]; [done|]. simpl. f_equal. exact IH. Qed.

(** What settling the promise of a connect leaves alone. *)
Lemma resolve_frame k w :
  ws (resolve k w) = ws w ∧ ws_userId (resolve k w) = ws_userId w
  ∧ clock (resolve k w) = clock w
  ∧ readyState <$> sockets (resolve k w) = readyState <$> sockets w.
Proof.
  unfold resolve. destruct (sockets w !! k) as [s|] eqn:Hk; [|done].
  destruct (promise s); try done.
  assert (Hins : readyState <$> <[k:=with_promise Resolved s]> (sockets w)
                 = readyState <$> sockets w).
  { rewrite list_fmap_insert. apply list_insert_id.
    by rewrite list_lookup_fmap, Hk. }
  destruct (awaited s); [|done].
  unfold listSessions.
  destruct (send_same_service ListSessions
              (set_sockets (<[k:=with_promise Resolved s]> (sockets w)) w))
    as (Hw&Hu&_&Hs&_&Hc).
  by rewrite Hw, Hu, Hs, Hc.
Qed.

Lemma reject_frame k w :
  ws (reject k w) = ws w ∧ ws_userId (reject k w) = ws_userId w
  ∧ clock (reject k w) = clock w
  ∧ readyState <$> sockets (reject k w) = readyState <$> sockets w.
Proof.
  unfold reject. destruct (sockets w !! k) as [s|] eqn:Hk; [|done].
  destruct (promise s); try done.
  assert (Hins : readyState <$> <[k:=with_promise Rejected s]> (sockets w)
                 = readyState <$> sockets w).
  { rewrite list_fmap_insert. apply list_insert_id.
    by rewrite list_lookup_fmap, Hk. }
  by destruct (awaited s).
Qed.

Lemma onopen_frame k w :
  reconnectAttempts (onopen k w) = 0 ∧ timers (onopen k w) = timers w
  ∧ clock (onopen k w) = clock w
  ∧ readyState <$> sockets (onopen k w) = readyState <$> sockets w.
Proof.
  unfold onopen.
  destruct (publish_same_service "connected" Connected
              (set_reconnectAttempts 0 w)) as (_&_&Ha&Hs&Ht&Hc).
  destruct (resolve_same_retry k
              (publish "connected" Connected (set_reconnectAttempts 0 w)))
    as [Ha' Ht'].
  destruct (resolve_frame k
              (publish "connected" Connected (set_reconnectAttempts 0 w)))
    as (_&_&Hc'&Hs').
  by rewrite Ha', Ht', Hc', Hs', Ha, Ht, Hc, Hs.
Qed.

Lemma onerror_readyStates k w :
  readyState <$> sockets (onerror k w) = readyState <$> sockets w.
Proof.
  unfold onerror.
  destruct (publish_same_service "error" (Error None) w) as (_&_&_&Hs&_&_).
  destruct (reject_frame k (publish "error" (Error None) w)) as (_&_&_&Hr).
  by rewrite Hr, Hs.
Qed.

Lemma onclose_frame k code reason w :
  ws (onclose k code reason w) = ws w
  ∧ ws_userId (onclose k code reason w) = ws_userId w
  ∧ sockets (onclose k code reason w) = sockets w
  ∧ clock (onclose k code reason w) = clock w.
Proof.
  unfold onclose. cbv zeta.
  destruct (publish_same_service "disconnected" (Disconnected code reason) w)
    as (Hw&Hu&_&Hs&_&Hc).
  by case_bool_decide.
Qed.

(** When the events of a transport and of a timer can happen. *)
Lemma step_closes w k s code reason :
  sockets w !! k = Some s → readyState s ≠ CLOSED →
  step (Closes k code reason) w
  = Some (onclose k code reason (mark k CLOSED w)).
Proof. intros Hk Hr. simpl. rewrite Hk. simpl. by rewrite decide_False. Qed.

Lemma step_fails w k s :
  sockets w !! k = Some s → readyState s ≠ CLOSED →
  step (Fails k) w = Some (onerror k w).
Proof. intros Hk Hr. simpl. rewrite Hk. simpl. by rewrite decide_False. Qed.

Lemma step_opens w k s :
  sockets w !! k = Some s → readyState s = CONNECTING →
  step (Opens k) w = Some (onopen k (mark k OPEN w)).
Proof. intros Hk Hr. simpl. rewrite Hk. simpl. by rewrite decide_True. Qed.

Lemma step_fires w i t :
  timers w !! i = Some t → set_at t + delay t ≤ clock w →
  step (Fires i) w
  = Some (connect (ws_userId w) (set_timers (delete i (timers w)) w)).1.
Proof.
  intros Ht Hdue. simpl. rewrite Ht. simpl.
  by rewrite bool_decide_eq_true_2.
Qed.

Lemma mark_lookup k r w s :
  sockets w !! k = Some s →
  sockets (mark k r w) !! k = Some (with_readyState r s).
Proof. intros Hk. simpl. by rewrite list_lookup_alter_eq, Hk. Qed.

(** The last scheduled attempt: from a close of the held transport with
    the count at 4, through the timer, to the failure of the new transport
    and its close. *)
Lemma last_attempt w k s code reason :
  reconnectAttempts w = 4 → ws w = Some k →
  sockets w !! k = Some s → readyState s ≠ CLOSED →
  ∃ w1 w2 w3 w4 w5,
    step (Closes k code reason) w = Some w1
    ∧ reconnectAttempts w1 = 5
    ∧ timers w1 = timers w ++ [mkTimer 3000 (clock w)]
    ∧ step (Tick 3000) w1 = Some w2
    ∧ step (Fires (length (timers w))) w2 = Some w3
    ∧ sockets w3 !! length (sockets w)
      = Some (mkWebSocket (ws_url (ws_userId w)) CONNECTING Pending false)
    ∧ ws w3 = Some (length (sockets w))
    ∧ timers w3 = timers w
    ∧ step (Fails (length (sockets w))) w3 = Some w4
    ∧ step (Closes (length (sockets w)) code reason) w4 = Some w5
    ∧ reconnectAttempts w5 = 5
    ∧ timers w5 = timers w
    ∧ ((∀ j s', j ≠ k → sockets w !! j = Some s' →
                readyState s' ≠ CONNECTING) →
       ∀ j s', sockets w5 !! j = Some s' → readyState s' ≠ CONNECTING).
Proof.
  intros H4 Hws Hk Hr.
  set (n := length (sockets w)).
  set (w0 := mark k CLOSED w).
  set (w1 := onclose k code reason w0).
  destruct (onclose_below k code reason w0) as [Ha1 Ht1];
    [unfold w0; simpl; rewrite H4; done|].
  destruct (onclose_frame k code reason w0) as (Hw1 & Hu1 & Hs1 & Hc1).
  fold w1 in Ha1, Ht1, Hw1, Hu1, Hs1, Hc1. simpl in Ha1, Ht1, Hw1, Hu1, Hc1.
  rewrite H4 in Ha1.
  set (w2 := set_clock (clock w1 + 3000) w1).
  set (w2' := set_timers (delete (length (timers w)) (timers w2)) w2).
  set (w3 := (connect (ws_userId w2') w2').1).
  assert (Hlen0 : length (sockets w0) = n)
    by (unfold w0; simpl; by rewrite length_alter).
  assert (Ho : open_transport w2' = None).
  { unfold open_transport, w2', w2. simpl. rewrite Hw1, Hws, Hs1.
    unfold w0. by rewrite (mark_lookup k CLOSED w s Hk). }
  assert (Hw3 : w3 = (open_socket (ws_userId w2') w2').1)
    by (unfold w3, connect; by rewrite Ho).
  assert (Hs3 : sockets w3
                = sockets w0 ++ [mkWebSocket (ws_url (ws_userId w))
                                   CONNECTING Pending false]).
  { rewrite Hw3. unfold open_socket, w2', w2. simpl. by rewrite Hs1, Hu1. }
  assert (Ht3 : timers w3 = timers w).
  { rewrite Hw3. unfold open_socket, w2', w2. simpl. rewrite Ht1.
    apply delete_last_snoc. }
  assert (Ha3 : reconnectAttempts w3 = 5).
  { rewrite Hw3. unfold open_socket, w2', w2. simpl. exact Ha1. }
  assert (Hn3 : sockets w3 !! n
                = Some (mkWebSocket (ws_url (ws_userId w))
                          CONNECTING Pending false)).
  { rewrite Hs3, lookup_app_r by lia. by rewrite Hlen0, Nat.sub_diag. }
  set (w4 := onerror n w3).
  destruct (onerror_same_retry n w3) as [Ha4 Ht4]. fold w4 in Ha4, Ht4.
  pose proof (onerror_readyStates n w3) as Hr4. fold w4 in Hr4.
  assert (Hn4 : ∃ s4, sockets w4 !! n = Some s4 ∧ readyState s4 = CONNECTING).
  { pose proof (f_equal (λ l, l !! n) Hr4) as Hl. simpl in Hl.
    rewrite !list_lookup_fmap, Hn3 in Hl. simpl in Hl.
    destruct (sockets w4 !! n) as [s4|]; [|done].
    exists s4. split; [done|]. by injection Hl. }
  destruct Hn4 as (s4 & Hn4 & Hr4n).
  set (w5 := onclose n code reason (mark n CLOSED w4)).
  destruct (onclose_ceiling n code reason (mark n CLOSED w4)) as [Ha5 Ht5].
  { change (reconnectAttempts (mark n CLOSED w4))
      with (reconnectAttempts w4).
    rewrite Ha4, Ha3. done. }
  destruct (onclose_frame n code reason (mark n CLOSED w4))
    as (_ & _ & Hs5 & _).
  fold w5 in Ha5, Ht5, Hs5.
  change (reconnectAttempts (mark n CLOSED w4))
    with (reconnectAttempts w4) in Ha5.
  change (timers (mark n CLOSED w4)) with (timers w4) in Ht5.
  exists w1, w2, w3, w4, w5.
  split; [by apply (step_closes w k s)|].
  split; [done|]. split; [done|]. split; [done|].
  split.
  { apply (step_fires w2 _ (mkTimer 3000 (clock w))).
    - unfold w2. simpl. rewrite Ht1, lookup_app_r by lia.
      by rewrite Nat.sub_diag.
    - unfold w2. simpl. rewrite Hc1. lia. }
  split; [done|].
  split. { rewrite Hw3. unfold open_socket, w2', w2. simpl.
           by rewrite Hs1, Hlen0. }
  split; [done|].
  split. { apply (step_fails w3 n _ Hn3). done. }
  split. { apply (step_closes w4 n s4 _ _ Hn4). by rewrite Hr4n. }
  split; [by rewrite Ha5, Ha4|].
  split; [by rewrite Ht5, Ht4|].
  intros Hothers j s' Hj. rewrite Hs5 in Hj.
  change (sockets (mark n CLOSED w4))
    with (alter (with_readyState CLOSED) n (sockets w4)) in Hj.
  destruct (decide (j = n)) as [->|Hjn].
  { rewrite list_lookup_alter_eq, Hn4 in Hj. by injection Hj as <-. }
  rewrite list_lookup_alter_ne in Hj by done.
  assert (Hrj : readyState <$> sockets w3 !! j = Some (readyState s')).
  { pose proof (f_equal (λ l, l !! j) Hr4) as Hl. simpl in Hl.
    rewrite !list_lookup_fmap, Hj in Hl. by rewrite <- Hl. }
  assert (Hlt : (j < n)%nat).
  { apply lookup_lt_Some in Hj.
    assert (length (sockets w4) = S n) as Hl4.
    { rewrite <- (length_fmap readyState), Hr4, length_fmap, Hs3,
        length_app, Hlen0. simpl. lia. }
    lia. }
  rewrite Hs3, lookup_app_l in Hrj by lia.
  unfold w0 in Hrj. simpl in Hrj.
  destruct (decide (j = k)) as [->|Hjk].
  { rewrite list_lookup_alter_eq, Hk in Hrj. simpl in Hrj.
    injection Hrj as Hrj. by rewrite <- Hrj. }
  rewrite list_lookup_alter_ne in Hrj by done.
  destruct (sockets w !! j) as [sj|] eqn:Hsj; [|done].
  simpl in Hrj. injection Hrj as Hrj. rewrite <- Hrj.
  by apply (Hothers j sj).
Qed.

(** An open re-arms the policy: whatever the count, a transport that opens
    and then closes leaves the count at 1 with a new timer. *)
Lemma open_then_close w k s code reason :
  sockets w !! k = Some s → readyState s = CONNECTING →
  ∃ w1 w2,
    step (Opens k) w = Some w1
    ∧ reconnectAttempts w1 = 0
    ∧ timers w1 = timers w
    ∧ step (Closes k code reason) w1 = Some w2
    ∧ reconnectAttempts w2 = 1
    ∧ timers w2 = timers w ++ [mkTimer 3000 (clock w)].
Proof.
  intros Hk Hr.
  set (w1 := onopen k (mark k OPEN w)).
  destruct (onopen_frame k (mark k OPEN w)) as (Ha1 & Ht1 & Hc1 & Hr1).
  fold w1 in Ha1, Ht1, Hc1, Hr1. simpl in Ht1, Hc1.
  assert (Hk1 : ∃ s1, sockets w1 !! k = Some s1 ∧ readyState s1 = OPEN).
  { pose proof (f_equal (λ l, l !! k) Hr1) as Hl. simpl in Hl.
    rewrite !list_lookup_fmap, list_lookup_alter_eq, Hk in Hl. simpl in Hl.
    destruct (sockets w1 !! k) as [s1|]; [|done].
    exists s1. split; [done|]. by injection Hl. }
  destruct Hk1 as (s1 & Hk1 & Hr1k).
  destruct (onclose_below k code reason (mark k CLOSED w1)) as [Ha2 Ht2];
    [simpl; rewrite Ha1; done|].
  simpl in Ha2, Ht2.
  exists w1, (onclose k code reason (mark k CLOSED w1)).
  split; [by apply (step_opens w k s)|].
  split; [done|]. split; [done|].
  split. { apply (step_closes w1 k s1 _ _ Hk1). by rewrite Hr1k. }
  split; [by rewrite Ha2, Ha1|]. by rewrite Ht2, Ht1, Hc1.
Qed.

(** C4. Reconnection policy. A transport close with fewer than 5 attempts
    made schedules exactly one timer, of delay 3000, and adds one to the
    attempt count. The timer cannot fire before its delay has passed; once
    it has, firing it calls [connect] with the identifier used last: a new
    transport to that identifier, unless one is open already. An open
    resets the count to zero and leaves the pending timers. A transport
    error before the open rejects the pending promise of its connect and
    publishes an [error] event (the provider's handler records it), and
    changes neither the count nor the timers. With the count at 5 a close
    schedules nothing and leaves the count, and this stays so along every
    run in which no transport opens, whatever else happens. A close of the
    held transport with the count at 4 brings the count to 5 with one more
    timer; when the transport of that last attempt fails and closes, the
    count is still 5 and no timer has been added, and no transport is
    connecting if none was. After that, with the count at 5, no timer
    pending and no transport connecting, no timer is scheduled along any
    run without a call of [connect]. The count at 5 alone does not end
    reconnection: a transport that opens (the one of the last scheduled
    attempt, say) and closes again leaves the count at 1 and one more
    timer, with no call of [connect]. *)
Theorem reconnection_policy :
  (∀ w k s code reason,
      sockets w !! k = Some s → readyState s ≠ CLOSED →
      reconnectAttempts w < 5 →
      ∃ w1, step (Closes k code reason) w = Some w1
            ∧ reconnectAttempts w1 = reconnectAttempts w + 1
            ∧ timers w1 = timers w ++ [mkTimer 3000 (clock w)]
            ∧ ws_userId w1 = ws_userId w)
  ∧ (∀ w i t,
      timers w !! i = Some t →
      (clock w < set_at t + delay t → step (Fires i) w = None)
      ∧ (set_at t + delay t ≤ clock w →
         ∃ w', step (Fires i) w = Some w'
               ∧ timers w' = delete i (timers w)
               ∧ reconnectAttempts w' = reconnectAttempts w
               ∧ ws_userId w' = ws_userId w
               ∧ (open_transport w = None →
                    sockets w'
                    = sockets w ++ [mkWebSocket (ws_url (ws_userId w))
                                      CONNECTING Pending false]
                    ∧ ws w' = Some (length (sockets w)))
               ∧ (is_Some (open_transport w) →
                    sockets w' = sockets w ∧ ws w' = ws w)))
  ∧ (∀ w k s,
      sockets w !! k = Some s → readyState s = CONNECTING →
      ∃ w1, step (Opens k) w = Some w1
            ∧ reconnectAttempts w1 = 0
            ∧ timers w1 = timers w)
  ∧ (∀ w k s,
      sockets w !! k = Some s → readyState s = CONNECTING →
      promise s = Pending →
      ∃ w1, step (Fails k) w = Some w1
            ∧ reconnectAttempts w1 = reconnectAttempts w
            ∧ timers w1 = timers w
            ∧ promise <$> sockets w1 !! k = Some Rejected
            ∧ (listeners w !! "error" = Some [ProviderHandler "error"] →
                 Dispatched (SET_ERROR default_error) ∈ trace w1))
  ∧ (∀ w k s code reason,
      sockets w !! k = Some s → readyState s ≠ CLOSED →
      5 ≤ reconnectAttempts w →
      ∃ w1, step (Closes k code reason) w = Some w1
            ∧ reconnectAttempts w1 = reconnectAttempts w
            ∧ timers w1 = timers w)
  ∧ (∀ inputs w w',
      5 ≤ reconnectAttempts w →
      forallb (λ i, negb (is_open i)) inputs = true →
      run inputs w = Some w' →
      reconnectAttempts w' = reconnectAttempts w
      ∧ timers w' `sublist_of` timers w)
  ∧ (∀ w k s code reason,
      reconnectAttempts w = 4 → ws w = Some k →
      sockets w !! k = Some s → readyState s ≠ CLOSED →
      ∃ w1 w2 w3 w4 w5,
        step (Closes k code reason) w = Some w1
        ∧ reconnectAttempts w1 = 5
        ∧ timers w1 = timers w ++ [mkTimer 3000 (clock w)]
        ∧ step (Tick 3000) w1 = Some w2
        ∧ step (Fires (length (timers w))) w2 = Some w3
        ∧ sockets w3 !! length (sockets w)
          = Some (mkWebSocket (ws_url (ws_userId w)) CONNECTING Pending false)
        ∧ ws w3 = Some (length (sockets w))
        ∧ timers w3 = timers w
        ∧ step (Fails (length (sockets w))) w3 = Some w4
        ∧ step (Closes (length (sockets w)) code reason) w4 = Some w5
        ∧ reconnectAttempts w5 = 5
        ∧ timers w5 = timers w
        ∧ ((∀ j s', j ≠ k → sockets w !! j = Some s' →
                    readyState s' ≠ CONNECTING) →
           ∀ j s', sockets w5 !! j = Some s' → readyState s' ≠ CONNECTING))
  ∧ (∀ inputs w w',
      reconnectAttempts w = 5 → timers w = [] →
      (∀ k s, sockets w !! k = Some s → readyState s ≠ CONNECTING) →
      forallb (λ i, negb (is_connect_call i)) inputs = true →
      run inputs w = Some w' →
      reconnectAttempts w' = 5 ∧ timers w' = [])
  ∧ (∀ w k s code reason,
      sockets w !! k = Some s → readyState s = CONNECTING →
      ∃ w1 w2,
        step (Opens k) w = Some w1
        ∧ reconnectAttempts w1 = 0
        ∧ timers w1 = timers w
        ∧ step (Closes k code reason) w1 = Some w2
        ∧ reconnectAttempts w2 = 1
        ∧ timers w2 = timers w ++ [mkTimer 3000 (clock w)]).
Proof.
  split; [|split; [|split; [|split; [|split; [|split; [|split; [|split]]]]]]].
  - intros w k s code reason Hk Hr Hlt.
    exists (onclose k code reason (mark k CLOSED w)).
    split; [by apply (step_closes w k s)|].
    destruct (onclose_below k code reason (mark k CLOSED w)) as [Ha Ht];
      [done|].
    destruct (onclose_frame k code reason (mark k CLOSED w)) as (_&Hu&_&_).
    by repeat split.
  - intros w i t Ht. split.
    + intros Hearly. simpl. rewrite Ht. simpl.
      by rewrite bool_decide_eq_false_2 by lia.
    + intros Hdue.
      exists (connect (ws_userId w) (set_timers (delete i (timers w)) w)).1.
      split; [by apply (step_fires w i t)|].
      unfold connect, open_socket.
      change (open_transport (set_timers (delete i (timers w)) w))
        with (open_transport w).
      destruct (open_transport w) as [k|]; simpl.
      * rewrite decide_True by done. simpl.
        repeat split; try done; by intros [? ?].
      * repeat split; try done; by intros [? [=]].
  - intros w k s Hk Hr. exists (onopen k (mark k OPEN w)).
    split; [by apply (step_opens w k s)|].
    by destruct (onopen_frame k (mark k OPEN w)) as (Ha&Ht&_&_).
  - intros w k s Hk Hr Hp. exists (onerror k w).
    split; [apply (step_fails w k s Hk); by rewrite Hr|].
    destruct (onerror_same_retry k w) as [Ha Ht].
    split; [done|]. split; [done|]. split.
    + unfold onerror.
      destruct (publish_same_service "error" (Error None) w)
        as (_&_&_&Hs&_&_).
      eapply reject_pending; [by rewrite Hs|done].
    + intros Hl. unfold onerror. apply reject_trace_grows.
      rewrite publish_error_dispatches by done.
      apply elem_of_app. right. apply list_elem_of_here.
  - intros w k s code reason Hk Hr Hge.
    exists (onclose k code reason (mark k CLOSED w)).
    split; [by apply (step_closes w k s)|].
    by apply (onclose_ceiling k code reason (mark k CLOSED w)).
  - intros inputs w w' Hge Hq Hrun. by eapply run_no_new_timer.
  - intros w k s code reason. apply last_attempt.
  - intros inputs w w' Ha Ht Hs Hq Hrun.
    destruct (run_exhausted inputs w w') as (Ha' & Ht' & _); done.
  - intros w k s code reason. apply open_then_close.
Qed.

(** ** One transport at a time *)







(** ** The deferred send *)

Lemma forEach_call {W Cb D : Type} (listeners_of : W → gmap string (list Cb))
    (call : Cb → D → W → W) event data n k w l cb :
  listeners_of w !! event = Some l → l !! k = Some cb →
  forEach listeners_of call event data (S n) k w
  = ((forEach listeners_of call event data n (S k) (call cb data w)).1,
     cb :: (forEach listeners_of call event data n (S k) (call cb data w)).2).
Proof. intros Hl Hk. simpl. rewrite Hl. simpl. by rewrite Hk. Qed.







Lemma frames_sent_app tr1 tr2 :
  frames_sent (tr1 ++ tr2) = frames_sent tr1 ++ frames_sent tr2.
Proof. unfold frames_sent. apply omap_app. Qed.


(** ** The active session and the transcript *)

Lemma send_state f w : state (send f w).1 = state w.
Proof. unfold send. by destruct (open_transport w). Qed.

Lemma connect_state u w : state (connect u w).1 = state w.
Proof.
  unfold connect, open_socket.
  destruct (open_transport w); [case_decide|]; done.
Qed.

Lemma provider_connect_transcript u w :
  messages (state (provider_connect u w)) = messages (state w)
  ∧ activeSessionId (state (provider_connect u w)) = activeSessionId (state w).
Proof.
  unfold provider_connect.
  match goal with
  | |- context [connect ?target ?w2] =>
      pose proof (connect_state target w2) as Hc;
      destruct (connect target w2) as [w3 [k|]]
  end; simpl in Hc; unfold listSessions; rewrite ?send_state; simpl;
    rewrite Hc; by destruct (_ && _).
Qed.

Lemma call_transcript i w w' :
  is_call i = true → step i w = Some w' →
  activeSessionId (state w') = activeSessionId (state w)
  ∨ messages (state w') = [].
Proof.
  destruct i; try done; intros _ [= <-].
  - left. apply provider_connect_transcript.
  - right. unfold switchUser.
    by destruct (provider_connect_transcript u
                   (dispatch (SET_ACTIVE_SESSION None)
                      (dispatch (SET_SESSIONS []) (dispatch CLEAR_MESSAGES w))))
      as [-> _].
  - left. unfold createSession, newSession. by rewrite send_state.
  - left. unfold switchSession, initSession. case_decide; [done|].
    by rewrite send_state.
  - left. unfold requestDelete, deleteSession. by rewrite send_state.
  - left. unfold sendMessage, newSession, chat. destruct (blank c); [done|].
    destruct (negb _); simpl; by rewrite send_state.
  - left. unfold sendAudioMessage, chatAudio. by rewrite send_state.
  - by left.
Qed.

(** C7, amended. An inbound event that changes the active session id is
    [session_loaded], which replaces the transcript with the supplied
    messages, [session_deleted] for the active session, which empties it, or
    [session_created], which prepends the new session, makes it active and
    leaves the transcript as it is. A call of the user interface that
    changes the active session id leaves the transcript empty.
    [createSession], and [switchSession] to another session, empty the
    transcript when they are called, before any confirmation arrives. *)
Theorem active_session_change_and_transcript :
  (∀ t ev s,
      activeSessionId (on_event t ev s) ≠ activeSessionId s →
      (∃ sid ttl, ev = SessionCreated sid ttl
                  ∧ activeSessionId (on_event t ev s) = Some sid
                  ∧ (∃ session, sessions (on_event t ev s) = session :: sessions s
                                ∧ sess_id session = sid)
                  ∧ messages (on_event t ev s) = messages s)
      ∨ (∃ sid l, ev = SessionLoaded sid l
                  ∧ activeSessionId (on_event t ev s) = Some sid
                  ∧ messages (on_event t ev s) = default [] l)
      ∨ (∃ sid, ev = SessionDeleted sid
                ∧ activeSessionId (on_event t ev s) = None
                ∧ messages (on_event t ev s) = []))
  ∧ (∀ i w w',
      is_call i = true → step i w = Some w' →
      activeSessionId (state w') ≠ activeSessionId (state w) →
      messages (state w') = [])
  ∧ (∀ w, messages (state (createSession w)) = [])
  ∧ (∀ sid w,
      Some sid ≠ activeSessionId (state w) →
      messages (state (switchSession sid w)) = []).
Proof.
  split; [|split; [|split]].
  - intros t ev s Hchg.
    destruct ev as [| |sid ttl|sid l| |sid| | | | | |]; try done.
    + left. exists sid, ttl. repeat split; try done.
      by eexists.
    + right. left. by exists sid, l.
    + right. right. exists sid. split; [done|].
      unfold on_event in *; simpl in *.
      by case_bool_decide.
  - intros i w w' Hcall Hstep Hchg.
    by destruct (call_transcript i w w' Hcall Hstep).
  - intros w. unfold createSession, newSession. by rewrite send_state.
  - intros sid w Hne. unfold switchSession, initSession.
    rewrite decide_False by done. by rewrite send_state.
Qed.

(** ** Runs *)

Lemma run_reachable inputs : ∀ w w',
  reachable w → run inputs w = Some w' → reachable w'.
Proof.
  induction inputs as [|i inputs IH]; intros w w' Hw Hrun; simpl in Hrun.
  - by injection Hrun as <-.
  - destruct (step i w) as [w1|] eqn:Hstep; [|done].
    eapply IH; [|exact Hrun]. by eapply reachable_step.
Qed.

Lemma invoke_provider_listeners name ev w :
  listeners (invoke (ProviderHandler name) ev w) = listeners w.
Proof.
  unfold invoke. case_decide; [|done].
  assert (Hall : ∀ l w0, listeners (dispatch_all l w0) = listeners w0).
  { induction l as [|a l IH]; intros w0; simpl; [done|]. by rewrite IH. }
  rewrite Hall. by destruct ev.
Qed.


(** ** The bus: subscribing and unsubscribing *)

Lemma indexOf_first {Cb : Type} `{EqDecision Cb} (cb : Cb) (l1 l2 : list Cb) :
  cb ∉ l1 → indexOf cb (l1 ++ cb :: l2) = Some (length l1).
Proof.
  induction l1 as [|x l1 IH]; intros Hn; simpl.
  - by rewrite decide_True.
  - rewrite decide_False by (intros ->; apply Hn, list_elem_of_here).
    rewrite IH; [done|]. intros Hin. by apply Hn, list_elem_of_further.
Qed.

Lemma indexOf_absent {Cb : Type} `{EqDecision Cb} (cb : Cb) (l : list Cb) :
  cb ∉ l → indexOf cb l = None.
Proof.
  induction l as [|x l IH]; intros Hn; simpl; [done|].
  rewrite decide_False by (intros ->; apply Hn, list_elem_of_here).
  rewrite IH; [done|]. intros Hin. by apply Hn, list_elem_of_further.
Qed.

Lemma delete_middle {A : Type} (l1 l2 : list A) (x : A) :
  delete (length l1) (l1 ++ x :: l2) = l1 ++ l2.
Proof. induction l1 as [|y l1 IH]; simpl; [done|]. by rewrite IH. Qed.

Lemma without_first_middle {Cb : Type} `{EqDecision Cb} (cb : Cb)
    (l1 l2 : list Cb) :
  cb ∉ l1 → without_first cb (l1 ++ cb :: l2) = l1 ++ l2.
Proof.
  intros Hn. unfold without_first. rewrite indexOf_first by done.
  apply delete_middle.
Qed.

Lemma off_lookup {Cb : Type} `{EqDecision Cb} (event e : string) (cb : Cb)
    (ls : gmap string (list Cb)) :
  off event cb ls !! e
  = if decide (e = event) then without_first cb <$> ls !! event else ls !! e.
Proof.
  unfold off, without_first. case_decide as He.
  - subst e. destruct (ls !! event) as [l|] eqn:Hl; simpl; [|done].
    destruct (indexOf cb l); [by rewrite lookup_insert_eq|done].
  - destruct (ls !! event) as [l|] eqn:Hl; [|done].
    destruct (indexOf cb l); [by rewrite lookup_insert_ne|done].
Qed.

Lemma on_lookup {Cb : Type} (event e : string) (cb : Cb)
    (ls : gmap string (list Cb)) :
  on event cb ls !! e
  = if decide (e = event) then Some (default [] (ls !! event) ++ [cb])
    else ls !! e.
Proof.
  unfold on. case_decide as He.
  - subst e. by rewrite lookup_insert_eq.
  - by rewrite lookup_insert_ne.
Qed.

(** X1. Unsubscribing right after subscribing, with a callback that was not
    yet in the array of the event, gives back the array as it was (created
    empty when the event had none) and touches no other event. *)
Theorem unsubscribe_after_subscribe {Cb : Type} `{EqDecision Cb}
    (event : string) (cb : Cb) (ls : gmap string (list Cb))
    (Hfresh : cb ∉ default [] (ls !! event)) :
  off event cb (on event cb ls) !! event = Some (default [] (ls !! event))
  ∧ ∀ e, e ≠ event → off event cb (on event cb ls) !! e = ls !! e.
Proof.
  split.
  - rewrite off_lookup, decide_True, on_lookup, decide_True by done. simpl.
    f_equal.
    rewrite <- (app_nil_r (default [] (ls !! event))) at 2.
    by apply without_first_middle.
  - intros e He. by rewrite off_lookup, decide_False, on_lookup, decide_False.
Qed.

(** X2. [off] removes the first occurrence of the callback in the array of
    the event and nothing else; for an event without array, or a callback
    that is not in the array, it changes nothing. In particular, when a
    callback is subscribed twice, the closure returned by the second [on]
    removes the first registration. *)
Theorem off_removes_first_occurrence {Cb : Type} `{EqDecision Cb}
    (event : string) (cb : Cb) (ls : gmap string (list Cb))
    (l1 l2 : list Cb)
    (Harray : ls !! event = Some (l1 ++ cb :: l2))
    (Hfirst : cb ∉ l1) :
  off event cb ls !! event = Some (l1 ++ l2)
  ∧ (∀ e, e ≠ event → off event cb ls !! e = ls !! e)
  ∧ off event cb (on event cb ls) !! event = Some (l1 ++ l2 ++ [cb])
  ∧ (∀ (cb' : Cb) (ls' : gmap string (list Cb)),
       cb' ∉ default [] (ls' !! event) → off event cb' ls' = ls').
Proof.
  split; [|split; [|split]].
  - rewrite off_lookup, decide_True, Harray by done. simpl.
    by rewrite without_first_middle.
  - intros e He. by rewrite off_lookup, decide_False.
  - rewrite off_lookup, decide_True, on_lookup, decide_True, Harray by done.
    simpl. rewrite <- app_assoc. simpl.
    by rewrite without_first_middle.
  - intros cb' ls' Hn. unfold off.
    destruct (ls' !! event) as [l|]; [|done]. simpl in Hn.
    by rewrite indexOf_absent.
Qed.

(** While no callback touches the array of the event, the state after a
    [forEach] is the one reached by calling the callbacks it goes through
    one after the other. *)
Lemma forEach_stable_state {W Cb D : Type}
    (listeners_of : W → gmap string (list Cb)) (call : Cb → D → W → W)
    event data (l : list Cb) n : ∀ k w,
  listeners_of w !! event = Some l →
  (∀ c w', c ∈ take n (drop k l) →
           listeners_of (call c data w') !! event = listeners_of w' !! event) →
  (forEach listeners_of call event data n k w).1
  = fold_left (λ w c, call c data w) (take n (drop k l)) w.
Proof.
  induction n as [|n IH]; intros k w Hl Hq; simpl; [done|].
  rewrite Hl; simpl. destruct (l !! k) as [c|] eqn:Hk.
  - rewrite (drop_S _ _ _ Hk) in *. simpl in *.
    rewrite IH; [done| |].
    + rewrite Hq; [done|]. apply list_elem_of_here.
    + intros c' w' Hc'. apply Hq. by apply list_elem_of_further.
  - apply lookup_ge_None in Hk.
    rewrite IH; [|done|].
    + by rewrite !drop_ge, take_nil by lia.
    + intros c' w'. rewrite drop_ge by lia. rewrite take_nil.
      intros Hc'. by apply elem_of_nil in Hc'.
Qed.

(** X3. When no subscribed callback touches the array of the event, [emit]
    calls every callback of the array exactly once, in registration order,
    each on the state the previous one left; an event without array calls
    nothing and leaves the state as it is. *)
Theorem emit_calls_in_registration_order {W Cb D : Type}
    (listeners_of : W → gmap string (list Cb)) (call : Cb → D → W → W)
    (event : string) (data : D) (w : W) (l : list Cb)
    (Harray : listeners_of w !! event = Some l)
    (Hquiet : ∀ c w', c ∈ l →
                listeners_of (call c data w') !! event
                = listeners_of w' !! event) :
  (emit_calls listeners_of call event data w).2 = l
  ∧ emit listeners_of call event data w
    = fold_left (λ w c, call c data w) l w
  ∧ (∀ w0, listeners_of w0 !! event = None →
       emit_calls listeners_of call event data w0 = (w0, [])).
Proof.
  assert (Htake : take (length l) (drop 0 l) = l)
    by (rewrite drop_0; apply take_ge; lia).
  split; [|split].
  - unfold emit_calls. rewrite Harray.
    destruct (forEach_stable listeners_of call event data l (length l) O w
                Harray) as [Hc _].
    { intros c w' Hc. apply Hquiet. by rewrite Htake in Hc. }
    by rewrite Hc, Htake.
  - unfold emit, emit_calls. rewrite Harray.
    rewrite (forEach_stable_state listeners_of call event data l); [|done|].
    + by rewrite Htake.
    + intros c w' Hc. apply Hquiet. by rewrite Htake in Hc.
  - intros w0 Hnone. unfold emit_calls. by rewrite Hnone.
Qed.

(** ** Mounting and unmounting the provider *)

Lemma fold_on_lookup (es : list string) : ∀ (ls : gmap string (list Callback)) e,
  NoDup es →
  fold_left (λ ls e, on e (ProviderHandler e) ls) es ls !! e
  = if decide (e ∈ es)
    then Some (default [] (ls !! e) ++ [ProviderHandler e])
    else ls !! e.
Proof.
  induction es as [|x es IH]; intros ls e Hnd; simpl; [done|].
  apply NoDup_cons in Hnd as [Hx Hnd]. rewrite IH by done.
  rewrite on_lookup. destruct (decide (e = x)) as [->|Hne].
  - rewrite decide_False by done.
    by rewrite decide_True by apply list_elem_of_here.
  - destruct (decide (e ∈ es)) as [He|He].
    + by rewrite decide_True by by apply list_elem_of_further.
    + rewrite decide_False; [done|].
      intros Hin. apply elem_of_cons in Hin as [?|?]; done.
Qed.

Lemma fold_off_lookup (es : list string) : ∀ (ls : gmap string (list Callback)) e,
  NoDup es →
  fold_left (λ ls e, off e (ProviderHandler e) ls) es ls !! e
  = if decide (e ∈ es)
    then without_first (ProviderHandler e) <$> ls !! e
    else ls !! e.
Proof.
  induction es as [|x es IH]; intros ls e Hnd; simpl; [done|].
  apply NoDup_cons in Hnd as [Hx Hnd]. rewrite IH by done.
  rewrite !off_lookup. destruct (decide (e = x)) as [->|Hne].
  - rewrite decide_False by done.
    by rewrite decide_True by apply list_elem_of_here.
  - destruct (decide (e ∈ es)) as [He|He].
    + by rewrite decide_True by by apply list_elem_of_further.
    + rewrite decide_False; [done|].
      intros Hin. apply elem_of_cons in Hin as [?|?]; done.
Qed.

Lemma provider_events_NoDup : NoDup provider_events.
Proof.
  unfold provider_events.
  repeat (apply NoDup_cons; split;
          [intros H; repeat (apply elem_of_cons in H as [H|H]; [discriminate|]);
           by apply elem_of_nil in H|]).
  apply NoDup_nil_2.
Qed.

(** X4. Mounting the provider appends its handler at the end of the array
    of each of its eleven events and touches no other event; the clean-up
    removes it again, so that, for a handler that was not subscribed
    before, unmounting after mounting gives back the array as it was, and
    mounting, unmounting and mounting again (as a double-run effect does)
    leaves exactly one more handler than before. *)
Theorem unmount_after_mount (w : World) (e : string)
    (Hfresh : ProviderHandler e ∉ default [] (listeners w !! e)) :
  (e ∈ provider_events →
     listeners (mount w) !! e
     = Some (default [] (listeners w !! e) ++ [ProviderHandler e])
     ∧ listeners (unmount (mount w)) !! e
       = Some (default [] (listeners w !! e))
     ∧ listeners (mount (unmount (mount w))) !! e
       = Some (default [] (listeners w !! e) ++ [ProviderHandler e]))
  ∧ (e ∉ provider_events →
     listeners (mount w) !! e = listeners w !! e
     ∧ listeners (unmount (mount w)) !! e = listeners w !! e).
Proof.
  pose proof provider_events_NoDup as Hnd.
  assert (Hback : without_first (ProviderHandler e)
                    (default [] (listeners w !! e) ++ [ProviderHandler e])
                  = default [] (listeners w !! e)).
  { rewrite <- (app_nil_r (default [] (listeners w !! e))) at 2.
    by apply without_first_middle. }
  assert (Hset : ∀ v w0, listeners (set_listeners v w0) = v) by done.
  split; intros He; unfold mount, unmount; rewrite !Hset.
  - rewrite fold_on_lookup by done.
    rewrite (fold_on_lookup provider_events (fold_left _ _ _)) by done.
    rewrite fold_off_lookup, fold_on_lookup by done.
    rewrite !decide_True by done. cbn [fmap option_fmap option_map default].
    by rewrite Hback.
  - rewrite fold_off_lookup, fold_on_lookup by done.
    by rewrite !decide_False by done.
Qed.

(** ** Disconnecting *)

Lemma send_closed f w :
  open_transport w = None →
  (send f w).2 = false ∧ frames_sent (trace (send f w).1) = frames_sent (trace w).
Proof.
  intros Ho. unfold send. rewrite Ho. simpl. split; [done|].
  rewrite frames_sent_app. simpl. apply app_nil_r.
Qed.

(** X5. After [disconnect()] on an open transport the service holds no
    transport, the transport is closing, and every [send] is refused and
    writes nothing. The reconnection is not switched off: when the close
    event of that transport arrives with fewer than 5 attempts made, a
    timer is scheduled, and once it fires a new transport to the last
    identifier is created and held by the service. *)
Theorem disconnect_stops_sending_but_reconnects (w : World) (k : nat)
    (s : WebSocket)
    (Hws : ws w = Some k) (Hs : sockets w !! k = Some s)
    (Hopen : readyState s = OPEN) :
  ws (disconnect w) = None
  ∧ readyState <$> sockets (disconnect w) !! k = Some CLOSING
  ∧ (∀ f, (send f (disconnect w)).2 = false
          ∧ frames_sent (trace (send f (disconnect w)).1)
            = frames_sent (trace w))
  ∧ (∀ code reason,
       reconnectAttempts w < 5 →
       ∃ w2 w3 w4,
         step (Closes k code reason) (disconnect w) = Some w2
         ∧ timers w2 = timers w ++ [mkTimer 3000 (clock w)]
         ∧ reconnectAttempts w2 = reconnectAttempts w + 1
         ∧ step (Tick 3000) w2 = Some w3
         ∧ step (Fires (length (timers w))) w3 = Some w4
         ∧ ws w4 = Some (length (sockets w))
         ∧ sockets w4 !! length (sockets w)
           = Some (mkWebSocket (ws_url (ws_userId w)) CONNECTING Pending false)).
Proof.
  assert (Hd : disconnect w = set_ws None (close_socket k w))
    by (unfold disconnect; by rewrite Hws).
  assert (Hk : sockets (disconnect w) !! k = Some (with_readyState CLOSING s)).
  { rewrite Hd. simpl. rewrite list_lookup_alter_eq, Hs. simpl.
    by rewrite Hopen. }
  split; [by rewrite Hd|]. split; [by rewrite Hk|]. split.
  { intros f.
    destruct (send_closed f (disconnect w)) as [Hr Hf]; [by rewrite Hd|].
    split; [done|]. rewrite Hf. by rewrite Hd. }
  intros code reason Hlt.
  set (w1 := mark k CLOSED (disconnect w)).
  destruct (onclose_below k code reason w1) as [Ha Ht];
    [unfold w1; rewrite Hd; exact Hlt|].
  destruct (publish_same_service "disconnected" (Disconnected code reason) w1)
    as (Hpw & Hpu & _ & Hps & _ & Hpc).
  set (w2 := onclose k code reason w1) in *.
  assert (Hw2 : ws w2 = None ∧ ws_userId w2 = ws_userId w
                ∧ sockets w2 = sockets w1 ∧ clock w2 = clock w).
  { unfold w2, onclose. cbv zeta.
    case_bool_decide; simpl; rewrite ?Hpw, ?Hpu, ?Hps, ?Hpc;
      unfold w1; by rewrite Hd. }
  destruct Hw2 as (Hw2 & Hu2 & Hs2 & Hc2).
  assert (Hlen : length (sockets w2) = length (sockets w)).
  { rewrite Hs2. unfold w1. rewrite Hd. simpl. by rewrite !length_alter. }
  assert (Ht2 : timers w2 = timers w ++ [mkTimer 3000 (clock w)])
    by (rewrite Ht; unfold w1; by rewrite Hd).
  set (w3 := set_clock (clock w2 + 3000) w2).
  set (w3' := set_timers (delete (length (timers w)) (timers w3)) w3).
  exists w2, w3, (connect (ws_userId w3') w3').1.
  split. { simpl. rewrite Hk. done. }
  split; [done|]. split; [rewrite Ha; unfold w1; by rewrite Hd|].
  split; [done|]. split.
  { simpl. rewrite Ht2, lookup_app_r, Nat.sub_diag by lia. simpl.
    rewrite bool_decide_eq_true_2 by (rewrite Hc2; lia).
    unfold w3', w3. simpl. by rewrite Ht2. }
  assert (Ho : open_transport w3' = None)
    by (unfold open_transport, w3', w3; simpl; by rewrite Hw2).
  unfold connect. rewrite Ho. unfold open_socket, w3', w3. simpl.
  rewrite Hlen, Hu2. split; [done|].
  by rewrite lookup_app_r, Hlen, Nat.sub_diag by lia.
Qed.

(** ** Invariants of the client *)

Lemma same_identity_trans w1 w2 w3 :
  same_identity w1 w2 → same_identity w2 w3 → same_identity w1 w3.
Proof.
  unfold same_identity. intros (?&?&?&?) (?&?&?&?). repeat split; congruence.
Qed.

Lemma dispatch_same_identity a w :
  (∀ u, a ≠ SET_USER_ID u) → same_identity w (dispatch a w).
Proof. intros Ha. destruct a; try by repeat split. by destruct (Ha payload). Qed.

Lemma dispatch_all_same_identity l : ∀ w,
  Forall (λ a, ∀ u, a ≠ SET_USER_ID u) l → same_identity w (dispatch_all l w).
Proof.
  induction l as [|a l IH]; intros w Hl; simpl; [by repeat split|].
  apply Forall_cons in Hl as [Ha Hl].
  eapply same_identity_trans; [by apply dispatch_same_identity|by apply IH].
Qed.

Lemma handler_actions_keep_user t ev :
  Forall (λ a, ∀ u, a ≠ SET_USER_ID u) (handler_actions t ev).
Proof. destruct ev; simpl; repeat constructor; done. Qed.

Lemma send_same_identity f w : same_identity w (send f w).1.
Proof. unfold send. by destruct (open_transport w); repeat split. Qed.

Lemma invoke_same_identity cb ev w : same_identity w (invoke cb ev w).
Proof.
  destruct cb as [name|n c]; simpl.
  - case_decide; [|by repeat split].
    eapply same_identity_trans;
      [|apply dispatch_all_same_identity, handler_actions_keep_user].
    by destruct ev; repeat split.
  - unfold chat.
    eapply same_identity_trans;
      [apply (dispatch_same_identity (ADD_USER_MESSAGE None c) w); done|].
    eapply same_identity_trans; [apply (send_same_identity (Chat c))|].
    by repeat split.
Qed.

Lemma publish_same_identity event ev w : same_identity w (publish event ev w).
Proof.
  unfold publish. apply (emit_preserves listeners invoke (same_identity w)).
  - intros cb w' Hw'. eapply same_identity_trans; [done|].
    apply invoke_same_identity.
  - by repeat split.
Qed.

Lemma resolve_same_identity k w : same_identity w (resolve k w).
Proof.
  unfold resolve. destruct (sockets w !! k) as [s|]; [|by repeat split].
  destruct (promise s); try by repeat split.
  assert (H1 : same_identity w
                 (set_sockets (<[k:=with_promise Resolved s]> (sockets w)) w))
    by (repeat split; simpl; by rewrite length_insert).
  destruct (awaited s); [|done].
  eapply same_identity_trans; [done|apply send_same_identity].
Qed.

Lemma reject_same_identity k w : same_identity w (reject k w).
Proof.
  unfold reject. destruct (sockets w !! k) as [s|]; [|by repeat split].
  destruct (promise s); try by repeat split.
  assert (H1 : same_identity w
                 (set_sockets (<[k:=with_promise Rejected s]> (sockets w)) w))
    by (repeat split; simpl; by rewrite length_insert).
  destruct (awaited s); [|done].
  eapply same_identity_trans; [done|by apply dispatch_same_identity].
Qed.

Lemma mark_same_identity k r w : same_identity w (mark k r w).
Proof. repeat split. simpl. by rewrite length_alter. Qed.

Lemma onclose_same_identity k code reason w :
  same_identity w (onclose k code reason w).
Proof.
  unfold onclose. cbv zeta.
  pose proof (publish_same_identity "disconnected" (Disconnected code reason) w).
  case_bool_decide; [|done].
  eapply same_identity_trans; [done|]. by repeat split.
Qed.

(** A step that is neither a call of [connect] nor a timer keeps the
    identifiers and the number of transports. *)
Lemma step_same_identity i w w' :
  is_connect_call i = false → (∀ j, i ≠ Fires j) →
  step i w = Some w' → same_identity w w'.
Proof.
  intros Hi Hf Hstep. destruct i; try done; simpl in Hstep.
  - destruct (sockets w !! k) as [s|]; [|done]. simpl in Hstep.
    case_decide; [|done]. injection Hstep as <-. unfold onopen.
    eapply same_identity_trans; [|apply resolve_same_identity].
    eapply same_identity_trans; [|apply publish_same_identity].
    eapply same_identity_trans; [apply (mark_same_identity k OPEN)|].
    by repeat split.
  - destruct (sockets w !! k) as [s|]; [|done]. simpl in Hstep.
    case_decide; [done|]. injection Hstep as <-.
    eapply same_identity_trans; [apply (mark_same_identity k CLOSED)|].
    apply onclose_same_identity.
  - destruct (sockets w !! k) as [s|]; [|done]. simpl in Hstep.
    case_decide; [done|]. injection Hstep as <-. unfold onerror.
    eapply same_identity_trans; [|apply reject_same_identity].
    apply publish_same_identity.
  - destruct (sockets w !! k) as [s|]; [|done]. simpl in Hstep.
    case_decide; [|done]. injection Hstep as <-.
    destruct data as [ev|]; simpl; [|by repeat split].
    unfold handleMessage.
    eapply same_identity_trans; apply publish_same_identity.
  - by destruct (Hf i).
  - case_bool_decide; [|done]. injection Hstep as <-. by repeat split.
  - injection Hstep as <-. by repeat split.
  - injection Hstep as <-. unfold createSession, newSession.
    eapply same_identity_trans; [|apply send_same_identity].
    by apply dispatch_same_identity.
  - injection Hstep as <-. unfold switchSession, initSession.
    case_decide; [by repeat split|].
    eapply same_identity_trans; [|apply send_same_identity].
    eapply same_identity_trans; by apply dispatch_same_identity.
  - injection Hstep as <-. apply send_same_identity.
  - injection Hstep as <-. unfold sendMessage, newSession, chat.
    destruct (blank c); [by repeat split|]. destruct (negb _).
    + eapply same_identity_trans; [apply (send_same_identity NewSession)|].
      by repeat split.
    + eapply same_identity_trans; [|apply send_same_identity].
      eapply same_identity_trans; [|by apply dispatch_same_identity].
      by repeat split.
  - injection Hstep as <-. unfold sendAudioMessage, chatAudio.
    eapply same_identity_trans; [|apply send_same_identity]. by repeat split.
  - injection Hstep as <-. by repeat split.
Qed.

Lemma connect_shape u w :
  timers (connect u w).1 = timers w
  ∧ ((ws_userId (connect u w).1 = u ∧ sockets (connect u w).1 ≠ [])
     ∨ (connect u w).1 = w).
Proof.
  assert (Hsnoc : ∀ (l : list WebSocket) x, l ++ [x] ≠ []).
  { intros l x Hnil. by apply app_eq_nil in Hnil as [_ ?]. }
  unfold connect, open_socket.
  destruct (open_transport w); [case_decide|]; simpl;
    (split; [done|]); auto.
Qed.

Lemma nonempty_length {A B : Type} (l : list A) (l' : list B) :
  length l' = length l → l ≠ [] → l' ≠ [].
Proof. intros Hlen Hl ->. destruct l; [done|]. discriminate Hlen. Qed.

Lemma identified_ext w w' :
  timers w' = timers w → length (sockets w') = length (sockets w) →
  ws_userId w' = ws_userId w → identified w → identified w'.
Proof.
  intros Ht Hl Hu [H1 H2]. split.
  - rewrite Ht. intros Hne. eapply nonempty_length; [exact Hl|auto].
  - rewrite Hu. intros Hne. apply H2.
    eapply nonempty_length; [symmetry; exact Hl|done].
Qed.

Lemma connect_identified u w :
  is_Some u → identified w → identified (connect u w).1.
Proof.
  intros Hu Hw. destruct (connect_shape u w) as (Ht & [[Hu' Hs]|Hsame]).
  - split; [done|]. by rewrite Hu'.
  - by rewrite Hsame.
Qed.

Lemma provider_connect_identified u w :
  identified w → identified (provider_connect u w).
Proof.
  intros Hw. unfold provider_connect.
  match goal with
  | |- context [connect ?target ?w2] =>
      assert (H2 : identified w2)
        by (by destruct (_ && _); apply (identified_ext w));
      pose proof (connect_identified target w2 ltac:(done) H2) as Hc;
      destruct (connect target w2) as [w3 [k|]]
  end; simpl in Hc.
  - apply (identified_ext w3); simpl; [done| |done|done].
    by rewrite length_alter.
  - unfold listSessions.
    destruct (send_same_identity ListSessions w3) as (Hu3 & Hl3 & _).
    destruct (send_same_service ListSessions w3) as (_&_&_&_&Ht3&_).
    by apply (identified_ext w3).
Qed.

Lemma step_identified i w w' :
  identified w → step i w = Some w' → identified w'.
Proof.
  intros Hw Hstep.
  assert (Hplain : is_connect_call i = false → (∀ j, i ≠ Fires j) →
                   (timers w' = timers w ∨ sockets w ≠ []) → identified w').
  { intros Hc Hf Ht.
    destruct (step_same_identity i w w' Hc Hf Hstep) as (Hu & Hl & _ & _).
    destruct Ht as [Ht|Hne]; [by apply (identified_ext w)|].
    destruct Hw as [H1 H2]. split; intros _.
    - eapply nonempty_length; [exact Hl|done].
    - rewrite Hu. by apply H2. }
  assert (Hcall : is_call i = true → timers w' = timers w)
    by (intros Hc; by destruct (call_same_retry i w w' Hc Hstep)).
  destruct i; simpl in Hstep;
    try (apply Hplain; [done|done|left; by apply Hcall]).
  - apply Hplain; [done|done|]. left.
    destruct (sockets w !! k) as [s|]; [|done]. simpl in Hstep.
    case_decide; [|done]. injection Hstep as <-. unfold onopen.
    destruct (resolve_same_retry k
                (publish "connected" Connected
                   (set_reconnectAttempts 0 (mark k OPEN w)))) as [_ ->].
    by destruct (publish_same_service "connected" Connected
                   (set_reconnectAttempts 0 (mark k OPEN w)))
      as (_&_&_&_&->&_).
  - apply Hplain; [done|done|]. right.
    destruct (sockets w !! k) as [s|] eqn:Hk; [|done].
    intros Hnil. by rewrite Hnil in Hk.
  - apply Hplain; [done|done|]. left.
    destruct (sockets w !! k) as [s|]; [|done]. simpl in Hstep.
    case_decide; [done|]. injection Hstep as <-.
    by destruct (onerror_same_retry k w) as [_ ->].
  - apply Hplain; [done|done|]. left.
    destruct (sockets w !! k) as [s|]; [|done]. simpl in Hstep.
    case_decide; [|done]. injection Hstep as <-.
    destruct data as [ev|]; simpl; [|done].
    by destruct (handleMessage_same_service ev w) as (_&_&_&_&->&_).
  - destruct (timers w !! i) as [t|] eqn:Ht; [|done].
    simpl in Hstep. case_bool_decide; [|done]. injection Hstep as <-.
    assert (Hne : timers w ≠ []) by (intros Hnil; by rewrite Hnil in Ht).
    destruct Hw as [H1 H2].
    apply connect_identified; [by apply H2, H1|].
    split; simpl; auto.
  - apply Hplain; [done|done|]. left.
    case_bool_decide; [|done]. by injection Hstep as <-.
  - apply Hplain; [done|done|]. left. by injection Hstep as <-.
  - injection Hstep as <-. by apply provider_connect_identified.
  - injection Hstep as <-. unfold switchUser.
    apply provider_connect_identified. by apply (identified_ext w).
Qed.

(** X6. In every world the client can reach, a pending timer implies that a
    transport was created, and a created transport implies that the service
    has an identifier: a reconnect never calls [connect] with the null
    identifier of a fresh service. *)
Theorem reconnect_has_identifier (w : World) (Hreach : reachable w) :
  (timers w ≠ [] → sockets w ≠ [])
  ∧ (sockets w ≠ [] → ∃ u, ws_userId w = Some u)
  ∧ (∀ i w', step (Fires i) w = Some w' → ∃ u, ws_userId w' = Some u).
Proof.
  assert (Hall : ∀ w0, reachable w0 → identified w0).
  { intros w0 Hw0. induction Hw0 as [stored t0|w0 i w1 _ IH Hstep].
    - by split.
    - by eapply step_identified. }
  destruct (Hall w Hreach) as [H1 H2].
  split; [done|]. split; [done|].
  intros i w' Hstep.
  destruct (Hall w' (reachable_step w (Fires i) w' Hreach Hstep)) as [_ H2'].
  apply H2'. simpl in Hstep.
  destruct (timers w !! i) as [t|] eqn:Ht; [|done]. simpl in Hstep.
  case_bool_decide; [|done]. injection Hstep as <-.
  assert (Hne : sockets w ≠ []).
  { apply H1. intros Hnil. by rewrite Hnil in Ht. }
  destruct (connect_shape (ws_userId w)
              (set_timers (delete i (timers w)) w)) as (_ & [[_ Hs]| ->]);
    done.
Qed.

Lemma step_retry_bounded i w w' :
  0 ≤ reconnectAttempts w ≤ maxReconnectAttempts →
  step i w = Some w' →
  0 ≤ reconnectAttempts w' ≤ maxReconnectAttempts.
Proof.
  intros Hb Hstep.
  destruct (is_call i) eqn:Hcall.
  { by destruct (call_same_retry i w w' Hcall Hstep) as [-> _]. }
  destruct i; try done; simpl in Hstep.
  - destruct (sockets w !! k) as [s|]; [|done]. simpl in Hstep.
    case_decide; [|done]. injection Hstep as <-.
    rewrite onopen_resets. unfold maxReconnectAttempts. lia.
  - destruct (sockets w !! k) as [s|]; [|done]. simpl in Hstep.
    case_decide; [done|]. injection Hstep as <-.
    destruct (decide (reconnectAttempts w < maxReconnectAttempts)) as [Hlt|Hge].
    + destruct (onclose_below k code reason (mark k CLOSED w) Hlt) as [-> _].
      simpl. lia.
    + destruct (onclose_ceiling k code reason (mark k CLOSED w)) as [-> _];
        [simpl; lia|done].
  - destruct (sockets w !! k) as [s|]; [|done]. simpl in Hstep.
    case_decide; [done|]. injection Hstep as <-.
    by destruct (onerror_same_retry k w) as [-> _].
  - destruct (sockets w !! k) as [s|]; [|done]. simpl in Hstep.
    case_decide; [|done]. injection Hstep as <-.
    destruct data as [ev|]; simpl; [|done].
    by destruct (handleMessage_same_service ev w) as (_&_&->&_).
  - destruct (timers w !! i) as [t|]; [|done]. simpl in Hstep.
    case_bool_decide; [|done]. injection Hstep as <-.
    by destruct (connect_same_retry (ws_userId w)
                   (set_timers (delete i (timers w)) w)) as [-> _].
  - case_bool_decide; [|done]. by injection Hstep as <-.
  - by injection Hstep as <-.
Qed.

(** X7. In every world the client can reach, the attempt count is between
    0 and [maxReconnectAttempts] = 5. *)
Theorem retry_count_bounded (w : World) (Hreach : reachable w) :
  0 ≤ reconnectAttempts w ≤ 5.
Proof.
  induction Hreach as [stored t0|w i w' _ IH Hstep].
  - done.
  - by apply (step_retry_bounded i w w').
Qed.

Lemma connect_stored u w : stored_user (connect u w).1 = stored_user w.
Proof.
  unfold connect, open_socket.
  destruct (open_transport w); [case_decide|]; done.
Qed.

(** X8. In every world the client can reach, the user identifier of the
    snapshot is the stored one, or "guest" when nothing (or the empty
    string) is stored: what [initialState] would read after a restart. *)
Theorem user_id_persisted (w : World) (Hreach : reachable w) :
  userId (state w) = or_else (stored_user w) "guest"
  ∧ userId (initialState (stored_user w)) = userId (state w).
Proof.
  assert (Hgoal : user_persisted w); [|by split].
  induction Hreach as [stored t0|w i w' _ IH Hstep]; [done|].
  unfold user_persisted in *.
  assert (Hpc : ∀ u w0, user_persisted w0 → user_persisted (provider_connect u w0)).
  { intros u w0 Hw0. unfold user_persisted, provider_connect in *.
    match goal with
    | |- context [connect ?target ?w2] =>
        assert (H2 : userId (state w2) = or_else (stored_user w2) "guest");
        [|pose proof (connect_state target w2) as Hs;
          pose proof (connect_stored target w2) as Hst;
          destruct (connect target w2) as [w3 [k|]]]
    end; simpl in *.
    - destruct (decide (u = "")) as [->|Hu]; simpl; [done|].
      case_bool_decide; simpl; [|done].
      unfold or_else. by rewrite decide_False.
    - by rewrite Hs, Hst.
    - unfold listSessions.
      destruct (send_same_identity ListSessions w3) as (_ & _ & -> & ->).
      by rewrite Hs, Hst. }
  destruct i as [k|k code reason|k|k data|j|dt| |u|u| |sid|sid|c|a|];
    try (match type of Hstep with
         | step ?i0 _ = _ =>
             by destruct (step_same_identity i0 w w' eq_refl
                            ltac:(intros ?; discriminate) Hstep)
               as (_ & _ & -> & ->)
         end).
  - simpl in Hstep. destruct (timers w !! j) as [t|]; [|done].
    simpl in Hstep. case_bool_decide; [|done]. injection Hstep as <-.
    by rewrite connect_state, connect_stored.
  - injection Hstep as <-. by apply Hpc.
  - injection Hstep as <-. unfold switchUser. by apply Hpc.
Qed.

(** ** Rosters, histories and blank messages *)

(** X9. [session_list] replaces the roster with the supplied list (empty
    when the frame has none) and changes no other field of the snapshot:
    the connection flags, the user, the active session id (even when no
    session of the new roster has it), the transcript, the loading flag,
    the emotion and the error stay as they were. Hence applying the same
    list twice gives the same snapshot as applying it once, and of two
    lists in a row the later one wins. *)
Theorem session_list_idempotent (t1 t2 : Z) (l l' : option (list Session))
    (s : State) :
  on_event t1 (SessionList l) s
  = mkState (isConnected s) (isConnecting s) (userId s) (default [] l)
      (activeSessionId s) (messages s) (isLoading s) (currentEmotion s)
      (error s)
  ∧ on_event t2 (SessionList l) (on_event t1 (SessionList l) s)
    = on_event t1 (SessionList l) s
  ∧ on_event t2 (SessionList l') (on_event t1 (SessionList l) s)
    = on_event t2 (SessionList l') s.
Proof. by repeat split. Qed.

Lemma call_roster i w w' :
  is_call i = true → step i w = Some w' →
  sessions (state w') = sessions (state w)
  ∨ (∃ u, i = CallSwitchUser u) ∧ sessions (state w') = [].
Proof.
  assert (Hpc : ∀ u w0, sessions (state (provider_connect u w0))
                        = sessions (state w0)).
  { intros u w0. unfold provider_connect.
    match goal with
    | |- context [connect ?target ?w2] =>
        pose proof (connect_state target w2) as Hc;
        destruct (connect target w2) as [w3 [k|]]
    end; simpl in Hc; unfold listSessions; rewrite ?send_state; simpl;
      rewrite Hc; by destruct (_ && _). }
  destruct i; try done; intros _ [= <-].
  - left. apply Hpc.
  - right. split; [by eauto|]. unfold switchUser. by rewrite Hpc.
  - left. unfold createSession, newSession. by rewrite send_state.
  - left. unfold switchSession, initSession. case_decide; [done|].
    by rewrite send_state.
  - left. unfold requestDelete, deleteSession. by rewrite send_state.
  - left. unfold sendMessage, newSession, chat. destruct (blank c); [done|].
    destruct (negb _); simpl; by rewrite send_state.
  - left. unfold sendAudioMessage, chatAudio. by rewrite send_state.
  - by left.
Qed.

(** X10. The roster is not deduplicated and not updated optimistically:
    [session_created] always prepends one entry, also for an id the roster
    already has; [session_deleted] removes every entry with the id and
    keeps the others in order; every other event except [session_list]
    leaves the roster alone; and no call of the user interface changes it,
    except [switchUser], which empties it. In particular the delete request
    removes nothing before the server confirms: the delete button of the
    sidebar does nothing at all when the user declines, and when the user
    confirms it leaves the snapshot as it is and attempts exactly one
    [delete_session] frame for the session (written when the transport is
    open, refused otherwise). *)
Theorem roster_updates (t : Z) (s : State) :
  (∀ sid ttl,
      length (filter (λ x, sess_id x = sid)
                (sessions (on_event t (SessionCreated sid ttl) s)))
      = S (length (filter (λ x, sess_id x = sid) (sessions s)))
      ∧ tail (sessions (on_event t (SessionCreated sid ttl) s)) = sessions s)
  ∧ (∀ sid,
      filter (λ x, sess_id x = sid)
        (sessions (on_event t (SessionDeleted sid) s)) = []
      ∧ ∀ other, other ≠ sid →
          filter (λ x, sess_id x = other)
            (sessions (on_event t (SessionDeleted sid) s))
          = filter (λ x, sess_id x = other) (sessions s))
  ∧ (∀ ev,
      event_type ev ∉ ["session_created"; "session_deleted"; "session_list"] →
      sessions (on_event t ev s) = sessions s)
  ∧ (∀ i w w',
      is_call i = true → step i w = Some w' →
      sessions (state w') = sessions (state w)
      ∨ (∃ u, i = CallSwitchUser u) ∧ sessions (state w') = [])
  ∧ (∀ sid w, handleDeleteSession false sid w = w)
  ∧ (∀ sid w,
      state (handleDeleteSession true sid w) = state w
      ∧ trace (handleDeleteSession true sid w)
        = trace w ++ [match open_transport w with
                      | Some k => Sent k (DeleteSession sid)
                      | None => NotSent (DeleteSession sid)
                      end]).
Proof.
  split; [|split; [|split; [|split; [|split]]]].
  - intros sid ttl. unfold on_event; simpl. split; [|done].
    by rewrite filter_cons_True.
  - intros sid. unfold on_event; simpl. split.
    + induction (sessions s) as [|x l IH]; [done|].
      destruct (decide (sess_id x = sid)) as [Hx|Hx].
      * by rewrite filter_cons_False by (intros ?; done).
      * rewrite filter_cons_True by done.
        by rewrite filter_cons_False.
    + intros other Hne. induction (sessions s) as [|x l IH]; [done|].
      destruct (decide (sess_id x = sid)) as [Hx|Hx].
      * rewrite (filter_cons_False (λ x, sess_id x ≠ sid))
          by (intros ?; done).
        rewrite IH. by rewrite (filter_cons_False (λ x, sess_id x = other))
          by congruence.
      * rewrite (filter_cons_True (λ x, sess_id x ≠ sid)) by done.
        destruct (decide (sess_id x = other)) as [Ho|Ho].
        -- rewrite !(filter_cons_True (λ x, sess_id x = other)) by done.
           by rewrite IH.
        -- rewrite !(filter_cons_False (λ x, sess_id x = other)) by done.
           by rewrite IH.
  - intros ev Hev. destruct ev; try done; exfalso; apply Hev; simpl.
    + apply list_elem_of_here.
    + do 2 apply list_elem_of_further. apply list_elem_of_here.
    + apply list_elem_of_further, list_elem_of_here.
  - intros i w w'. apply call_roster.
  - done.
  - intros sid w. unfold handleDeleteSession, requestDelete, deleteSession.
    rewrite send_state. split; [done|].
    unfold send. by destruct (open_transport w).
Qed.

Lemma set_last_lookup (m : Message) (msgs : list Message) (i : nat) :
  (S i < length msgs)%nat → set_last m msgs !! i = msgs !! i.
Proof. intros Hi. unfold set_last. apply list_lookup_insert_ne. lia. Qed.

Lemma set_last_length (m : Message) (msgs : list Message) :
  length (set_last m msgs) = length msgs.
Proof. apply length_insert. Qed.

(** X11. History is kept: a reducer transition other than
    [CLEAR_MESSAGES], [LOAD_SESSION_MESSAGES] and [REMOVE_SESSION] never
    shortens the transcript, lengthens it by at most one message, and
    leaves every message but the last one exactly as it was. *)
Theorem history_is_kept (t : Z) (s : State) (a : Action)
    (Ha : keeps_history a = true) :
  (length (messages s) ≤ length (messages (chatReducer t s a)))%nat
  ∧ (length (messages (chatReducer t s a)) ≤ S (length (messages s)))%nat
  ∧ ∀ i, (S i < length (messages s))%nat →
         messages (chatReducer t s a) !! i = messages s !! i.
Proof.
  assert (Hsnoc : ∀ m,
            (length (messages s) ≤ length (messages s ++ [m]))%nat
            ∧ (length (messages s ++ [m]) ≤ S (length (messages s)))%nat
            ∧ ∀ i, (S i < length (messages s))%nat →
                   (messages s ++ [m]) !! i = messages s !! i).
  { intros m. rewrite length_app. simpl. split; [lia|]. split; [lia|].
    intros i Hi. apply lookup_app_l. lia. }
  assert (Hlast : ∀ m,
            (length (messages s) ≤ length (set_last m (messages s)))%nat
            ∧ (length (set_last m (messages s)) ≤ S (length (messages s)))%nat
            ∧ ∀ i, (S i < length (messages s))%nat →
                   set_last m (messages s) !! i = messages s !! i).
  { intros m. rewrite set_last_length. split; [lia|]. split; [lia|].
    intros i Hi. by apply set_last_lookup. }
  assert (Hsame : (length (messages s) ≤ length (messages s))%nat
                  ∧ (length (messages s) ≤ S (length (messages s)))%nat
                  ∧ ∀ i, (S i < length (messages s))%nat →
                         messages s !! i = messages s !! i)
    by (split; [lia|]; split; [lia|done]).
  destruct a; try done; simpl.
  - apply Hsnoc.
  - apply Hsnoc.
  - unfold append_stream_delta. destruct (last (messages s)) as [m|]; [|apply Hsnoc].
    destruct (streaming_assistant m); [apply Hlast|apply Hsnoc].
  - unfold finish_assistant_message.
    destruct (last (messages s)) as [m|]; [|apply Hsame].
    destruct (streaming_assistant m); [apply Hlast|apply Hsame].
Qed.

Lemma blank_bytes_spaces (l : list N) :
  Forall (λ b, ascii_space b = true) l → blank_bytes l = true.
Proof.
  induction l as [|b l IH]; intros Hl; [done|].
  apply Forall_cons in Hl as [Hb Hl]. simpl. rewrite Hb. by apply IH.
Qed.

Lemma visible_not_space b1 b2 b3 :
  (visible_ascii b1 = true → ascii_space b1 = false)
  ∧ (visible_ascii b1 = true ∨ visible_ascii b2 = true →
     two_byte_space b1 b2 = false)
  ∧ (visible_ascii b1 = true ∨ visible_ascii b2 = true
     ∨ visible_ascii b3 = true →
     three_byte_space b1 b2 b3 = false).
Proof.
  unfold visible_ascii, ascii_space, two_byte_space, three_byte_space.
  repeat split; intros Hv;
    apply not_true_is_false; intros Hs;
    repeat match goal with
           | H : _ ∨ _ |- _ => destruct H
           | H : _ && _ = true |- _ => apply andb_prop in H as [? ?]
           | H : _ || _ = true |- _ => apply orb_prop in H as [?|?]
           | H : (_ <=? _)%N = true |- _ => apply N.leb_le in H
           | H : (_ =? _)%N = true |- _ => apply N.eqb_eq in H
           end; lia.
Qed.

Lemma blank_bytes_visible (n : nat) : ∀ l,
  (length l ≤ n)%nat → Exists (λ b, visible_ascii b = true) l →
  blank_bytes l = false.
Proof.
  induction n as [|n IH]; intros l Hlen Hex.
  { destruct l; [by apply Exists_nil in Hex|simpl in Hlen; lia]. }
  destruct l as [|b1 l1]; [by apply Exists_nil in Hex|].
  simpl in *. apply Exists_cons in Hex.
  destruct (ascii_space b1) eqn:Hs1.
  { apply IH; [lia|]. destruct Hex as [Hv|Hex]; [|done].
    destruct (visible_not_space b1 0 0) as (H1 & _). by rewrite H1 in Hs1. }
  destruct l1 as [|b2 l2]; [done|]. simpl in *.
  destruct (two_byte_space b1 b2) eqn:Hs2.
  { apply IH; [lia|]. destruct (visible_not_space b1 b2 0) as (_ & H2 & _).
    destruct Hex as [Hv|Hex]; [rewrite H2 in Hs2; by auto|].
    apply Exists_cons in Hex as [Hv|Hex]; [rewrite H2 in Hs2; by auto|done]. }
  destruct l2 as [|b3 l3]; [done|]. simpl in *.
  destruct (three_byte_space b1 b2 b3) eqn:Hs3; [|done].
  apply IH; [lia|]. destruct (visible_not_space b1 b2 b3) as (_ & _ & H3).
  destruct Hex as [Hv|Hex]; [rewrite H3 in Hs3; by auto|].
  apply Exists_cons in Hex as [Hv|Hex]; [rewrite H3 in Hs3; by auto|].
  apply Exists_cons in Hex as [Hv|Hex]; [rewrite H3 in Hs3; by auto|done].
Qed.

(** X12. A message made of ASCII white space only (the empty message
    included) is dropped without a trace: [sendMessage] returns the client
    as it was, and [handleSend] leaves the input box as it was too. A
    message with at least one visible ASCII character is never taken for
    blank, and [sendMessage] attempts a frame for it: with an active
    session it appends the user message and then attempts [chat] with the
    content; with none it attempts [new_session] and dispatches nothing
    (a frame is written when the transport is open and refused otherwise).
    [handleSend] does the same, empties the input box and stops the
    playback. *)
Theorem blank_messages_are_dropped (c : string) (w : World) :
  (Forall (λ b, ascii_space b = true) (bytes_of c) →
     sendMessage c w = w ∧ handleSend c w = (c, w))
  ∧ (Exists (λ b, visible_ascii b = true) (bytes_of c) →
     blank c = false
     ∧ (truthy (activeSessionId (state w)) = true →
          trace (sendMessage c w)
          = trace w ++ [Dispatched (ADD_USER_MESSAGE None c);
                        match open_transport w with
                        | Some k => Sent k (Chat c)
                        | None => NotSent (Chat c)
                        end])
     ∧ (truthy (activeSessionId (state w)) = false →
          trace (sendMessage c w)
          = trace w ++ [match open_transport w with
                        | Some k => Sent k NewSession
                        | None => NotSent NewSession
                        end])
     ∧ (handleSend c w).1 = ""
     ∧ trace (handleSend c w).2 = trace (sendMessage c w)
     ∧ state (handleSend c w).2 = state (sendMessage c w)
     ∧ audioRef (handleSend c w).2 = None).
Proof.
  split.
  - intros Hsp. apply blank_bytes_spaces in Hsp.
    unfold sendMessage, handleSend, blank, bytes_of in *. by rewrite Hsp.
  - intros Hv.
    assert (Hb : blank c = false)
      by (unfold blank; eapply blank_bytes_visible; [done|exact Hv]).
    split; [done|]. unfold handleSend, sendMessage. rewrite Hb.
    change (activeSessionId (state (stopAudio w)))
      with (activeSessionId (state w)).
    split; [|split].
    + intros Ha. rewrite Ha. simpl. unfold chat, send.
      change (open_transport
                (dispatch (ADD_USER_MESSAGE None c) (stopAudio w)))
        with (open_transport w).
      destruct (open_transport w); simpl; by rewrite <- app_assoc.
    + intros Ha. rewrite Ha. simpl. unfold newSession, send.
      by destruct (open_transport w).
    + destruct (truthy (activeSessionId (state w))); simpl;
        unfold newSession, chat, send;
        repeat match goal with
               | |- context [open_transport ?x] =>
                   lazymatch x with
                   | w => fail
                   | _ => change (open_transport x) with (open_transport w)
                   end
               end;
        by destruct (open_transport w).
Qed.

(** ** Switching sessions and users, connecting *)

(** X13. [switchSession] to the session that is already active changes
    nothing. To another session it sets the loading flag, empties the
    transcript and requests the session (the frame carries the id, except
    that an empty id is left out of it, and is written only when the
    transport is open), while the active id and the
    roster stay as they were; it is the [session_loaded] event that makes
    the session active, fills the transcript and clears the loading flag. *)
Theorem switchSession_then_loaded (sid : string) (w : World) :
  (activeSessionId (state w) = Some sid → switchSession sid w = w)
  ∧ (activeSessionId (state w) ≠ Some sid →
     isLoading (state (switchSession sid w)) = true
     ∧ messages (state (switchSession sid w)) = []
     ∧ activeSessionId (state (switchSession sid w)) = activeSessionId (state w)
     ∧ sessions (state (switchSession sid w)) = sessions (state w)
     ∧ (∀ k, open_transport w = Some k → sid ≠ "" →
          frames_sent (trace (switchSession sid w))
          = frames_sent (trace w) ++ [InitSession (Some sid)])
     ∧ (∀ k, open_transport w = Some k → sid = "" →
          frames_sent (trace (switchSession sid w))
          = frames_sent (trace w) ++ [InitSession None])
     ∧ (open_transport w = None →
          frames_sent (trace (switchSession sid w)) = frames_sent (trace w))
     ∧ (∀ t msgs,
          activeSessionId (on_event t (SessionLoaded sid msgs)
                             (state (switchSession sid w))) = Some sid
          ∧ messages (on_event t (SessionLoaded sid msgs)
                        (state (switchSession sid w))) = default [] msgs
          ∧ isLoading (on_event t (SessionLoaded sid msgs)
                         (state (switchSession sid w))) = false)).
Proof.
  split.
  - intros Ha. unfold switchSession. by rewrite decide_True.
  - intros Ha. unfold switchSession, initSession.
    rewrite decide_False by done. rewrite send_state. simpl.
    repeat split.
    + intros k Ho Hne. unfold send.
      change (open_transport (dispatch CLEAR_MESSAGES
                                (dispatch (SET_LOADING true) w)))
        with (open_transport w).
      rewrite Ho. unfold truthy. rewrite decide_False by done. simpl.
      rewrite !frames_sent_app. simpl. by rewrite !app_nil_r.
    + intros k Ho ->. unfold send.
      change (open_transport (dispatch CLEAR_MESSAGES
                                (dispatch (SET_LOADING true) w)))
        with (open_transport w).
      rewrite Ho. simpl.
      rewrite !frames_sent_app. simpl. by rewrite !app_nil_r.
    + intros Ho. unfold send.
      change (open_transport (dispatch CLEAR_MESSAGES
                                (dispatch (SET_LOADING true) w)))
        with (open_transport w).
      rewrite Ho. simpl. rewrite !frames_sent_app. simpl.
      by rewrite !app_nil_r.
Qed.

Lemma provider_connect_state u w :
  state (provider_connect u w)
  = if truthy (Some u) && bool_decide (u ≠ userId (state w))
    then chatReducer (clock w)
           (chatReducer (clock w) (state w) SET_CONNECTING) (SET_USER_ID u)
    else chatReducer (clock w) (state w) SET_CONNECTING.
Proof.
  unfold provider_connect.
  match goal with
  | |- context [connect ?target ?w2] =>
      pose proof (connect_state target w2) as Hc;
      destruct (connect target w2) as [w3 [k|]]
  end; simpl in Hc; unfold listSessions; rewrite ?send_state; simpl;
    rewrite Hc; by destruct (_ && _).
Qed.

(** X14. [switchUser] leaves nothing of the previous user on display: the
    transcript and the roster are empty, no session is active, the error is
    cleared and the snapshot is connecting, whatever the state of the
    transport; the snapshot takes the new identifier when it is not empty
    (an empty one keeps the current identifier). *)
Theorem switchUser_clears (u : string) (w : World) :
  messages (state (switchUser u w)) = []
  ∧ sessions (state (switchUser u w)) = []
  ∧ activeSessionId (state (switchUser u w)) = None
  ∧ isConnecting (state (switchUser u w)) = true
  ∧ error (state (switchUser u w)) = None
  ∧ (u ≠ "" → userId (state (switchUser u w)) = u)
  ∧ (u = "" → userId (state (switchUser u w)) = userId (state w)).
Proof.
  unfold switchUser. rewrite provider_connect_state. simpl.
  destruct (decide (u = "")) as [->|Hu]; simpl.
  - by repeat split.
  - case_bool_decide as Hne; simpl; repeat split; try done.
Qed.

(** X15. The connect effect of the application runs [connect] at most
    once: it does nothing before the first interaction or while the
    snapshot is connected or connecting, and since [connect] marks the
    snapshot as connecting, running the effect again right after it has
    connected changes nothing. *)
Theorem autoConnect_runs_once (w : World) :
  autoConnect true (autoConnect true w) = autoConnect true w
  ∧ (isConnected (state w) = true ∨ isConnecting (state w) = true →
     autoConnect true w = w)
  ∧ autoConnect false w = w
  ∧ (isConnected (state w) = false → isConnecting (state w) = false →
     autoConnect true w = provider_connect (userId (state w)) w
     ∧ isConnecting (state (autoConnect true w)) = true).
Proof.
  assert (Hc : ∀ u w0, isConnecting (state (provider_connect u w0)) = true).
  { intros u w0. rewrite provider_connect_state. by destruct (_ && _). }
  assert (Hbusy : ∀ w0, isConnected (state w0) = true
                        ∨ isConnecting (state w0) = true →
                        autoConnect true w0 = w0).
  { intros w0 [H|H]; unfold autoConnect; rewrite H; simpl;
      by rewrite ?andb_false_r. }
  split; [|split; [exact (Hbusy w)|split; [done|]]].
  - destruct (true && negb (isConnected (state w))
              && negb (isConnecting (state w))) eqn:Hrun.
    + assert (Hw : autoConnect true w = provider_connect (userId (state w)) w)
        by (unfold autoConnect; by rewrite Hrun).
      rewrite Hw. apply Hbusy. right. apply Hc.
    + assert (Hw : autoConnect true w = w)
        by (unfold autoConnect; by rewrite Hrun).
      by rewrite !Hw.
  - intros H1 H2. unfold autoConnect. rewrite H1, H2. simpl.
    split; [done|]. apply Hc.
Qed.

Lemma publish_single event ev w cb :
  listeners w !! event = Some [cb] → publish event ev w = invoke cb ev w.
Proof.
  intros Hl. unfold publish, emit, emit_calls. rewrite Hl.
  change (length [cb]) with 1%nat.
  by rewrite (forEach_call listeners invoke _ _ _ O _ _ _ Hl eq_refl).
Qed.

Lemma alter_last {A : Type} (f : A → A) (l : list A) (x : A) :
  alter f (length l) (l ++ [x]) = l ++ [f x].
Proof. induction l as [|y l IH]; [done|]. simpl. f_equal. exact IH. Qed.

Lemma provider_connect_closed u w :
  u ≠ "" → open_transport w = None →
  provider_connect u w
  = set_sockets (sockets w ++ [mkWebSocket (ws_url (Some u)) CONNECTING
                                 Pending true])
      (set_ws (Some (length (sockets w)))
         (set_ws_userId (Some u)
            (if bool_decide (u ≠ userId (state w))
             then dispatch (SET_USER_ID u) (dispatch SET_CONNECTING w)
             else dispatch SET_CONNECTING w))).
Proof.
  intros Hu Ho. unfold provider_connect, connect.
  assert (Ht : truthy (Some u) = true)
    by (unfold truthy; by rewrite decide_False).
  assert (Hor : or_else (Some u) (userId (state w)) = u)
    by (unfold or_else; by rewrite decide_False).
  rewrite Ht, Hor. simpl.
  case_bool_decide;
    match goal with
    | |- context [open_transport ?x] =>
        change (open_transport x) with (open_transport w)
    end; rewrite Ho; simpl; by rewrite alter_last.
Qed.

(** X16. Connecting from a client whose provider is mounted and which
    holds no open transport: the provider's [connect] (with a non-empty
    identifier) creates one transport for that identifier, held by the
    service, and sends nothing yet. When that transport opens, the snapshot
    becomes connected and no longer connecting, the attempt count is zero,
    and the roster is requested: exactly one [list_sessions] frame is
    written. When instead it fails before opening, the error of the
    snapshot is the connection-failed message, nothing is sent and no
    timer is scheduled by the error itself, and the snapshot still says
    connecting. *)
Theorem connect_then_open_or_fail (u : string) (w : World)
    (Hu : u ≠ "")
    (Hclosed : open_transport w = None)
    (Hconnected : listeners w !! "connected" = Some [ProviderHandler "connected"])
    (Herror : listeners w !! "error" = Some [ProviderHandler "error"]) :
  sockets (provider_connect u w)
  = sockets w ++ [mkWebSocket (ws_url (Some u)) CONNECTING Pending true]
  ∧ ws (provider_connect u w) = Some (length (sockets w))
  ∧ frames_sent (trace (provider_connect u w)) = frames_sent (trace w)
  ∧ (∃ w2, step (Opens (length (sockets w))) (provider_connect u w) = Some w2
           ∧ isConnected (state w2) = true
           ∧ isConnecting (state w2) = false
           ∧ reconnectAttempts w2 = 0
           ∧ frames_sent (trace w2) = frames_sent (trace w) ++ [ListSessions])
  ∧ (∃ w3, step (Fails (length (sockets w))) (provider_connect u w) = Some w3
           ∧ error (state w3) = Some connect_failed
           ∧ isConnecting (state w3) = true
           ∧ frames_sent (trace w3) = frames_sent (trace w)
           ∧ timers w3 = timers w
           ∧ reconnectAttempts w3 = reconnectAttempts w).
Proof.
  rewrite (provider_connect_closed u w Hu Hclosed).
  set (k := length (sockets w)).
  set (sock := mkWebSocket (ws_url (Some u)) CONNECTING Pending true).
  set (w0 := if bool_decide (u ≠ userId (state w))
             then dispatch (SET_USER_ID u) (dispatch SET_CONNECTING w)
             else dispatch SET_CONNECTING w).
  assert (H0 : listeners w0 = listeners w ∧ sockets w0 = sockets w
               ∧ frames_sent (trace w0) = frames_sent (trace w)
               ∧ isConnecting (state w0) = true
               ∧ timers w0 = timers w
               ∧ reconnectAttempts w0 = reconnectAttempts w).
  { unfold w0. case_bool_decide; simpl; rewrite !frames_sent_app; simpl;
      by rewrite ?app_nil_r. }
  destruct H0 as (Hl0 & Hs0 & Hf0 & Hc0 & Ht0 & Ha0).
  set (w1 := set_sockets (sockets w ++ [sock])
               (set_ws (Some k) (set_ws_userId (Some u) w0))).
  assert (Hk : sockets w1 !! k = Some sock).
  { unfold w1. simpl. by rewrite lookup_app_r, Nat.sub_diag by (unfold k; lia). }
  split; [done|]. split; [done|]. split; [done|]. split.
  - eexists. split.
    { simpl. rewrite lookup_app_r, Nat.sub_diag by (unfold k; lia). done. }
    unfold onopen.
    set (wm := set_reconnectAttempts 0 (mark k OPEN w1)).
    assert (Hp : publish "connected" Connected wm = dispatch SET_CONNECTED wm).
    { rewrite (publish_single "connected" Connected wm
                 (ProviderHandler "connected")); [|by rewrite <- Hconnected, <- Hl0].
      unfold invoke. by rewrite decide_True. }
    rewrite Hp.
    assert (Hkm : sockets (dispatch SET_CONNECTED wm) !! k
                  = Some (with_readyState OPEN sock)).
    { unfold wm, w1, k. simpl. rewrite alter_last.
      by rewrite lookup_app_r, Nat.sub_diag by lia. }
    unfold resolve. rewrite Hkm. simpl.
    unfold listSessions, send, open_transport. simpl.
    unfold k. rewrite alter_last.
    rewrite list_lookup_insert_eq by (rewrite length_app; simpl; lia).
    simpl. repeat split.
    rewrite !frames_sent_app, Hf0. simpl. by rewrite app_nil_r.
  - eexists. split.
    { simpl. rewrite lookup_app_r, Nat.sub_diag by (unfold k; lia). done. }
    unfold onerror.
    assert (Hp : publish "error" (Error None) w1
                 = dispatch (SET_ERROR default_error) w1).
    { rewrite (publish_single "error" (Error None) w1 (ProviderHandler "error"));
        [|by rewrite <- Herror, <- Hl0].
      unfold invoke. by rewrite decide_True. }
    rewrite Hp. unfold reject.
    change (sockets (dispatch (SET_ERROR default_error) w1)) with (sockets w1).
    rewrite Hk. simpl. rewrite Hc0, Ht0, Ha0. repeat split.
    rewrite !frames_sent_app, Hf0. simpl. by rewrite !app_nil_r.
Qed.

(** ** Playback *)

(** X17. Playback stays outside the snapshot. The [audio] event replaces
    the playing audio by the one built from the frame, in [wav] format when
    the frame names none or names the empty one, and changes neither the
    snapshot nor what is sent. Sending a recording stops the playback and
    leaves the snapshot as it is. Sending a text message stops the playback
    when a session is active; on the deferred path, with no active session,
    [sendMessage] returns before that and the audio goes on playing. *)
Theorem playback_outside_snapshot (w : World) :
  (∀ data format,
     listeners w !! "audio" = Some [ProviderHandler "audio"] →
     audioRef (publish "audio" (Audio data format) w)
     = Some (audio_url data format)
     ∧ state (publish "audio" (Audio data format) w) = state w
     ∧ trace (publish "audio" (Audio data format) w) = trace w)
  ∧ (∀ data, audio_url data None = "data:audio/wav;base64," +:+ data
             ∧ audio_url data (Some "") = audio_url data None)
  ∧ (∀ a, audioRef (sendAudioMessage a w) = None
          ∧ state (sendAudioMessage a w) = state w)
  ∧ (∀ c, blank c = false →
       (truthy (activeSessionId (state w)) = true →
        audioRef (sendMessage c w) = None)
       ∧ (truthy (activeSessionId (state w)) = false →
          audioRef (sendMessage c w) = audioRef w
          ∧ state (sendMessage c w) = state w)).
Proof.
  repeat split.
  - rewrite (publish_single "audio" (Audio data format) w
               (ProviderHandler "audio")) by done.
    done.
  - rewrite (publish_single "audio" (Audio data format) w
               (ProviderHandler "audio")) by done.
    done.
  - rewrite (publish_single "audio" (Audio data format) w
               (ProviderHandler "audio")) by done.
    done.
  - unfold sendAudioMessage, chatAudio, send, stopAudio. simpl.
    by destruct (open_transport _).
  - unfold sendAudioMessage, chatAudio. by rewrite send_state.
  - intros Ha. unfold sendMessage. rewrite H, Ha. simpl.
    unfold chat, send. by destruct (open_transport _).
  - unfold sendMessage. rewrite H, H0. simpl.
    unfold newSession, send. by destruct (open_transport _).
  - unfold sendMessage. rewrite H, H0. simpl.
    unfold newSession, send. by destruct (open_transport _).
Qed.

End Model.

(** * Examples and counterexamples *)

(** C1 at work: "A" then "B" on the empty transcript. *)
Lemma stream_deltas_assemble_witness :
  trailing_streaming
    (messages (stream_run sample_iso [(1, "A"); (2, "B")] (initialState None)))
  = 1%nat.
Proof.
  exact (proj1 (proj2 (stream_deltas_assemble sample_iso (initialState None)
                         1 "A" [(2, "B")] eq_refl))).
Defined.

(** C9 at work: a [stream_end] on a transcript that ends with a user
    message. *)
Lemma stream_end_without_stream_witness :
  messages (on_event sample_iso 5 (StreamEnd (Some "happy") (Some "bye"))
              sample_session_state)
  = messages sample_session_state.
Proof.
  exact (stream_end_without_stream sample_iso 5 sample_session_state
           (Some "happy") (Some "bye") eq_refl).
Defined.

(** C6 at work: deleting the active session "s1". *)
Lemma session_deleted_effect_witness :
  activeSessionId (on_event sample_iso 5 (SessionDeleted "s1") sample_session_state)
  = None
  ∧ messages (on_event sample_iso 5 (SessionDeleted "s1") sample_session_state)
    = [].
Proof.
  exact (proj1 (proj2 (proj2 (proj2
           (session_deleted_effect sample_iso 5 sample_session_state "s1"))))
           eq_refl).
Defined.

(** C8 as stated fails: a [stream_end] that supplies the empty string as
    final content does not replace the accumulated content "AB" with it. *)
Lemma stream_end_empty_content_kept :
  content <$> last (messages (on_event sample_iso 5
                                (StreamEnd (Some "happy") (Some ""))
                                sample_streaming_state))
  = Some "AB"
  ∧ content <$> last (messages (on_event sample_iso 5
                                  (StreamEnd (Some "happy") (Some ""))
                                  sample_streaming_state))
    ≠ Some "".
Proof. split; [reflexivity|discriminate]. Defined.

(** C8, amended, at work: a non-empty final content replaces "AB". *)
Lemma stream_end_finishes_witness :
  messages (on_event sample_iso 5 (StreamEnd (Some "happy") (Some "ABC"))
              sample_streaming_state)
  = [mkMessage "assistant-1" "assistant" "ABC" "T1" (Some false) (Some "happy")].
Proof.
  exact (proj1 (stream_end_finishes sample_iso 5 sample_streaming_state []
                  (mkMessage "assistant-1" "assistant" "AB" "T1" (Some true) None)
                  (Some "happy") (Some "ABC") eq_refl eq_refl)).
Defined.

(** C2 as stated fails: after [stream A] and [user_message_echo x] on an
    open transport, the streaming message is no longer the last one. *)
Lemma streaming_message_not_last :
  ∃ w, run sample_iso sample_encode run_echo_during_stream (boot None 0) = Some w
       ∧ reachable sample_iso sample_encode w
       ∧ (content <$> messages (state w)) = ["A"; "x"]
       ∧ (isStreaming <$> messages (state w)) = [Some true; None]
       ∧ ¬ transcript_invariant (messages (state w)).
Proof.
  destruct (run sample_iso sample_encode run_echo_during_stream (boot None 0))
    as [w|] eqn:Hrun; [|by vm_compute in Hrun].
  exists w. split; [done|]. split.
  { by apply (run_reachable sample_iso sample_encode run_echo_during_stream
                (boot None 0)); [apply reachable_boot|]. }
  assert (Hmsgs : messages (state w)
                  = [mkMessage "assistant-0" "assistant" "A" "T0"
                       (Some true) None;
                     mkMessage "user-0" "user" "x" "T0" None None]).
  { vm_compute in Hrun. by injection Hrun as <-. }
  rewrite Hmsgs. split; [done|]. split; [done|].
  intros Hinv.
  destruct (Hinv O _ eq_refl eq_refl) as [Hlen _]. discriminate Hlen.
Defined.

(** C2, amended, at work: a user message appended to a transcript in which
    nothing is streaming. *)
Lemma invariant_preserved_witness :
  transcript_invariant
    (messages (chatReducer sample_iso 5 sample_session_state
                 (ADD_USER_MESSAGE None "again"))).
Proof.
  refine (proj1 (invariant_preserved sample_iso 5 sample_session_state
                   (ADD_USER_MESSAGE None "again") _ _)).
  - apply invariant_none_streaming. intros m Hm.
    apply list_elem_of_singleton in Hm. by rewrite Hm.
  - intros m Hm. apply list_elem_of_singleton in Hm. by rewrite Hm.
Defined.



(** C4 as stated fails: the count at 5 does not end reconnection. After
    five closes in a row the count is 5 and the fifth attempt is pending;
    it fires, its transport opens and closes again, and a new timer is
    scheduled although nothing has called [connect] in between. *)
Lemma reconnect_scheduled_after_fifth_attempt :
  ∃ w w', run sample_iso sample_encode run_five_closes (boot None 0) = Some w
          ∧ reachable sample_iso sample_encode w
          ∧ reconnectAttempts w = 5
          ∧ timers w = [mkTimer 3000 12000]
          ∧ forallb (λ i, negb (is_connect_call i)) run_fifth_attempt_opens
            = true
          ∧ run sample_iso sample_encode run_fifth_attempt_opens w = Some w'
          ∧ reconnectAttempts w' = 1
          ∧ timers w' = [mkTimer 3000 15000].
Proof.
  destruct (run sample_iso sample_encode run_five_closes (boot None 0))
    as [w|] eqn:Hrun; [|by vm_compute in Hrun].
  assert (Hreach : reachable sample_iso sample_encode w).
  { by apply (run_reachable sample_iso sample_encode run_five_closes
                (boot None 0)); [apply reachable_boot|]. }
  vm_compute in Hrun. injection Hrun as <-.
  eexists _, _. split; [done|]. split; [exact Hreach|].
  split; [done|]. split; [done|]. split; [done|].
  split; [by vm_compute|]. split; by vm_compute.
Qed.

(** C4, amended, at work: a close of the held transport with the count at
    4, the attempt it schedules, and the failure of that attempt; the count
    stays at 5 and no timer is left. *)
Lemma reconnection_policy_witness :
  ∃ w5, run sample_iso sample_encode run_last_attempt sample_retry_world
        = Some w5
        ∧ reconnectAttempts w5 = 5
        ∧ timers w5 = [].
Proof.
  destruct (proj1 (proj2 (proj2 (proj2 (proj2 (proj2 (proj2
              (reconnection_policy sample_iso sample_encode)))))))
              sample_retry_world O
              (mkWebSocket "ws://localhost:8000/ws/chat?user_id=guest"
                 OPEN Resolved true) 1006 ""
              eq_refl eq_refl eq_refl ltac:(discriminate))
    as (w1 & w2 & w3 & w4 & w5 & H1 & _ & _ & H2 & H3 & _ & _ & _ & H4 & H5
        & Ha & Ht & _).
  exists w5. split; [|by split].
  change (length (timers sample_retry_world)) with O in H3.
  change (length (sockets sample_retry_world)) with 1%nat in H4, H5.
  unfold run_last_attempt. cbn [run].
  rewrite H1. cbn [mbind option_bind]. rewrite H2. cbn [mbind option_bind].
  rewrite H3. cbn [mbind option_bind]. rewrite H4. cbn [mbind option_bind].
  by rewrite H5.
Defined.



(** C7 as stated fails: a [session_created] event changes the active
    session from "s0" to "s1" and the transcript of "s0" is carried over. *)
Lemma session_created_keeps_transcript :
  ∃ w w', run sample_iso sample_encode run_echo_in_session (boot None 0) = Some w
          ∧ step sample_iso sample_encode
              (Receives 0 (Some (SessionCreated "s1" None))) w = Some w'
          ∧ activeSessionId (state w) = Some "s0"
          ∧ activeSessionId (state w') = Some "s1"
          ∧ (content <$> messages (state w)) = ["hello"]
          ∧ (content <$> messages (state w')) = ["hello"].
Proof.
  destruct (run sample_iso sample_encode run_echo_in_session (boot None 0))
    as [w|] eqn:Hrun; [|by vm_compute in Hrun].
  vm_compute in Hrun. injection Hrun as <-.
  eexists _, _. split; [done|]. split; [by vm_compute|].
  repeat split; by vm_compute.
Qed.

(** C7, amended, at work: [session_deleted] for the active session. *)
Lemma active_session_change_and_transcript_witness :
  (∃ sid ttl, SessionDeleted "s1" = SessionCreated sid ttl
      ∧ activeSessionId (on_event sample_iso 5 (SessionDeleted "s1")
                           sample_session_state) = Some sid
      ∧ (∃ session,
           sessions (on_event sample_iso 5 (SessionDeleted "s1")
                       sample_session_state)
           = session :: sessions sample_session_state
           ∧ sess_id session = sid)
      ∧ messages (on_event sample_iso 5 (SessionDeleted "s1")
                    sample_session_state)
        = messages sample_session_state)
  ∨ (∃ sid l, SessionDeleted "s1" = SessionLoaded sid l
      ∧ activeSessionId (on_event sample_iso 5 (SessionDeleted "s1")
                           sample_session_state) = Some sid
      ∧ messages (on_event sample_iso 5 (SessionDeleted "s1")
                    sample_session_state) = default [] l)
  ∨ (∃ sid, SessionDeleted "s1" = SessionDeleted sid
      ∧ activeSessionId (on_event sample_iso 5 (SessionDeleted "s1")
                           sample_session_state) = None
      ∧ messages (on_event sample_iso 5 (SessionDeleted "s1")
                    sample_session_state) = []).
Proof.
  refine (proj1 (active_session_change_and_transcript sample_iso sample_encode)
            5 (SessionDeleted "s1") sample_session_state _).
  discriminate.
Defined.



(** ** The further properties at work *)

#[local] Existing Instance Callback_eq_dec.

(** X1 at work: a one-shot closure subscribed to [session_created] on the
    open client and unsubscribed again. *)
Lemma unsubscribe_after_subscribe_witness :
  off "session_created" (DeferredSend 0 "hi")
    (on "session_created" (DeferredSend 0 "hi") (listeners sample_open_world))
    !! "session_created"
  = Some [ProviderHandler "session_created"].
Proof.
  refine (proj1 (unsubscribe_after_subscribe "session_created"
                   (DeferredSend 0 "hi") (listeners sample_open_world) _)).
  intros H. vm_compute in H.
  apply list_elem_of_singleton in H. discriminate H.
Defined.

(** X2 at work: the first of two waiting closures is unsubscribed. *)
Lemma off_removes_first_occurrence_witness :
  off "session_created" (DeferredSend 0 "hi") (listeners sample_waiting_world)
    !! "session_created"
  = Some [ProviderHandler "session_created"; DeferredSend 1 "yo"].
Proof.
  refine (proj1 (off_removes_first_occurrence "session_created"
                   (DeferredSend 0 "hi") (listeners sample_waiting_world)
                   [ProviderHandler "session_created"] [DeferredSend 1 "yo"]
                   _ _)).
  - vm_compute. reflexivity.
  - intros H. apply list_elem_of_singleton in H. discriminate H.
Defined.

(** X3 at work: a [stream] event on the open client calls the provider's
    handler. *)
Lemma emit_calls_in_registration_order_witness :
  (emit_calls listeners (invoke sample_iso) "stream" (Stream "A")
     sample_open_world).2
  = [ProviderHandler "stream"].
Proof.
  refine (proj1 (emit_calls_in_registration_order listeners
                   (invoke sample_iso) "stream" (Stream "A")
                   sample_open_world [ProviderHandler "stream"] _ _)).
  - vm_compute. reflexivity.
  - intros c w' Hc. apply list_elem_of_singleton in Hc. rewrite Hc.
    by rewrite invoke_provider_listeners.
Defined.

(** X4 at work: the provider mounted again after it was unmounted. *)
Lemma unmount_after_mount_witness :
  listeners (mount (unmount sample_open_world)) !! "stream"
  = Some [ProviderHandler "stream"].
Proof.
  refine (proj1 (proj1 (unmount_after_mount (unmount sample_open_world)
                          "stream" _) _)).
  - intros H. vm_compute in H. by apply elem_of_nil in H.
  - unfold provider_events. set_solver.
Defined.

(** X5 at work: [disconnect()] on the open client. *)
Lemma disconnect_stops_sending_but_reconnects_witness :
  ws (disconnect sample_open_world) = None
  ∧ readyState <$> sockets (disconnect sample_open_world) !! O = Some CLOSING.
Proof.
  refine (let H := disconnect_stops_sending_but_reconnects sample_iso
                     sample_encode sample_open_world O
                     (mkWebSocket "ws://localhost:8000/ws/chat?user_id=guest"
                        OPEN Resolved true) _ _ _ in
          conj (proj1 H) (proj1 (proj2 H))).
  - reflexivity.
  - reflexivity.
  - reflexivity.
Defined.

(** X6 at work: after the transport of "guest" has dropped, a timer is
    pending and the service holds the identifier. *)
Lemma reconnect_has_identifier_witness :
  ∃ w, run sample_iso sample_encode run_dropped (boot None 0) = Some w
       ∧ timers w = [mkTimer 3000 0]
       ∧ sockets w ≠ []
       ∧ ∃ u, ws_userId w = Some u.
Proof.
  destruct (run sample_iso sample_encode run_dropped (boot None 0))
    as [w|] eqn:Hrun; [|by vm_compute in Hrun].
  exists w. split; [done|].
  destruct (reconnect_has_identifier sample_iso sample_encode w)
    as (Ht & Hs & _).
  { by apply (run_reachable sample_iso sample_encode run_dropped
                (boot None 0)); [apply reachable_boot|]. }
  assert (timers w = [mkTimer 3000 0]) as Htimers.
  { vm_compute in Hrun. by injection Hrun as <-. }
  split; [done|].
  assert (sockets w ≠ []) as Hne.
  { apply Ht. by rewrite Htimers. }
  split; [done|]. by apply Hs.
Defined.

(** X7 at work: the count after the transport of "guest" has dropped. *)
Lemma retry_count_bounded_witness :
  ∃ w, run sample_iso sample_encode run_dropped (boot None 0) = Some w
       ∧ 0 ≤ reconnectAttempts w ≤ 5.
Proof.
  destruct (run sample_iso sample_encode run_dropped (boot None 0))
    as [w|] eqn:Hrun; [|by vm_compute in Hrun].
  exists w. split; [done|].
  apply (retry_count_bounded sample_iso sample_encode).
  by apply (run_reachable sample_iso sample_encode run_dropped
              (boot None 0)); [apply reachable_boot|].
Defined.

(** X8 at work: the user is switched from the stored "hym" to "nrx". *)
Lemma user_id_persisted_witness :
  userId (state (switchUser sample_iso sample_encode "nrx"
                   (boot (Some "hym") 0)))
  = or_else (stored_user (switchUser sample_iso sample_encode "nrx"
                            (boot (Some "hym") 0))) "guest".
Proof.
  refine (proj1 (user_id_persisted sample_iso sample_encode _ _)).
  apply (reachable_step sample_iso sample_encode (boot (Some "hym") 0)
           (CallSwitchUser "nrx")); [apply reachable_boot|reflexivity].
Defined.

(** X11 at work: a delta arrives while a message is streaming. *)
Lemma history_is_kept_witness :
  (length (messages sample_streaming_state)
   ≤ length (messages (chatReducer sample_iso 5 sample_streaming_state
                         (APPEND_STREAM_DELTA "C"))))%nat.
Proof.
  refine (proj1 (history_is_kept sample_iso 5 sample_streaming_state
                   (APPEND_STREAM_DELTA "C") _)).
  reflexivity.
Defined.

(** X16 at work: the first [connect] of a freshly mounted client. *)
Lemma connect_then_open_or_fail_witness :
  sockets (provider_connect sample_iso sample_encode "guest" (boot None 0))
  = [mkWebSocket "ws://localhost:8000/ws/chat?user_id=guest" CONNECTING
       Pending true]
  ∧ ws (provider_connect sample_iso sample_encode "guest" (boot None 0))
    = Some O.
Proof.
  refine (let H := connect_then_open_or_fail sample_iso sample_encode "guest"
                     (boot None 0) _ _ _ _ in
          conj (proj1 H) (proj1 (proj2 H))).
  - discriminate.
  - reflexivity.
  - vm_compute. reflexivity.
  - vm_compute. reflexivity.
Defined.
